(** * A shallow embedding of the session server core of pborman/pty

    Bytes are [Z] values in [0, 256); a Go [[]byte] whose length equals its
    capacity (a [make([]byte, n)] buffer) is a [list Z]. *)

From Stdlib Require Import ZArith String Ascii List Bool Lia.
Import ListNotations.
Open Scope Z_scope.

(** ** Go helpers shared by the modules *)
Module Go.

(** [copy(dst[off:], src)]: overwrite [dst] from [off], returning the new
    [dst] and the number of bytes copied. *)
Definition copy_at (dst : list Z) (off : nat) (src : list Z) : list Z * nat :=
  let k := Nat.min (length src) (length dst - off) in
  (firstn off dst ++ firstn k src ++ skipn (off + k) dst, k).

(** [s[lo:hi]] *)
Definition slice (s : list Z) (lo hi : nat) : list Z := firstn (hi - lo) (skipn lo s).

(** [bytes.IndexByte(s, b)], [None] for -1. *)
Fixpoint index_byte (s : list Z) (b : Z) : option nat :=
  match s with
  | [] => None
  | x :: s' => if Z.eqb x b then Some O else option_map S (index_byte s' b)
  end.

Definition nth_byte (s : list Z) (i : nat) : Z := nth i s 0.

End Go.

(** ** Message codec: messenger.go *)
Module Messenger.
Import Go.

(** The items a writer is given: opaque bytes ([Write], or [Send] with
    kind 0) and framed messages ([Send] with a nonzero kind). *)
Inductive item :=
| Data (b : list Z)
| Msg (kind : Z) (payload : list Z).

(** [MessengerWriter.Write]: every NUL is written twice.  The loop writes
    [buf[:x+1]], then continues from [buf[x:]], so the NUL at [x] is sent
    again at the head of the next write. *)
Fixpoint stuff (buf : list Z) : list Z :=
  match buf with
  | [] => []
  | b :: rest => if Z.eqb b 0 then 0 :: 0 :: stuff rest else b :: stuff rest
  end.

(** [MessengerWriter.Send] with kind <> 0: the header
    [0, kind, len>>24, len>>16, len>>8, len] (each as [byte(..)]) and the
    payload, written in one or two underlying writes. *)
Definition header (kind : Z) (count : Z) : list Z :=
  [0; kind mod 256; Z.shiftr count 24 mod 256; Z.shiftr count 16 mod 256;
   Z.shiftr count 8 mod 256; count mod 256].

Definition send (kind : Z) (buf : list Z) : list Z :=
  if Z.eqb kind 0 then stuff buf
  else header kind (Z.of_nat (length buf)) ++ buf.

Definition write_item (i : item) : list Z :=
  match i with
  | Data b => stuff b
  | Msg k p => send k p
  end.

(** The bytes on the wire after the writer has been given [items], every
    underlying write succeeding. *)
Definition wire (items : list item) : list Z := flat_map write_item items.

(** The reader's error field: [nil] or [io.EOF]. *)
Inductive error := EOF | OutOfFuel.

(** [MessengerReader]: [message] is the buffer ([len = cap]), [mh]/[mt]
    its head and tail, [err] the sticky error, and [src] what the
    underlying [io.Reader] (a [bytes.Buffer] or a connection holding the
    rest of the stream) still has to deliver. *)
Record reader := {
  message : list Z;
  mh : nat;
  mt : nat;
  err : option error;
  src : list Z
}.

Definition new_reader (s : list Z) : reader :=
  {| message := repeat 0 32768; mh := 0; mt := 0; err := None; src := s |}.

(** One underlying [Read(message[mt:])]: [n = min(len p, available)];
    an empty [p] gives [0, nil]; an exhausted source gives [0, io.EOF]. *)
Definition src_read (r : reader) : reader * nat :=
  let room := (length (message r) - mt r)%nat in
  if Nat.eqb room 0 then (r, O)
  else match src r with
       | [] => ({| message := message r; mh := mh r; mt := mt r;
                   err := Some EOF; src := [] |}, O)
       | _ =>
         let n := Nat.min room (length (src r)) in
         let '(m', _) := copy_at (message r) (mt r) (firstn n (src r)) in
         ({| message := m'; mh := mh r; mt := mt r + n;
             err := None; src := skipn n (src r) |}, n)
       end.

Definition set_heads (r : reader) (m : list Z) (h t : nat) : reader :=
  {| message := m; mh := h; mt := t; err := err r; src := src r |}.

(** The body of the [for m.error == nil && m.mt-m.mh < count] loop of
    [fill]. *)
Definition fill_step (count : Z) (r : reader) : reader :=
  let r1 :=
    if Z.gtb count (Z.of_nat (length (message r))) then
      (* nm := make([]byte, (count+0x1000)&0xfff) *)
      let nm := repeat 0 (Z.to_nat (Z.land (count + 4096) 4095)) in
      let '(nm', k) := copy_at nm 0 (slice (message r) 0 (mt r - mh r)) in
      set_heads r nm' 0 k
    else if Z.gtb (Z.of_nat (mh r) + count) (Z.of_nat (length (message r))) then
      let '(m', k) := copy_at (message r) 0 (slice (message r) (mh r) (mt r)) in
      set_heads r m' 0 k
    else r in
  let '(r2, n) := src_read r1 in
  if andb (Nat.eqb n 0) (match err r2 with None => true | _ => false end)
  then {| message := message r2; mh := mh r2; mt := mt r2;
          err := Some EOF; src := src r2 |}
  else r2.

Definition loop_cond (count : Z) (r : reader) : bool :=
  match err r with
  | None => Z.ltb (Z.of_nat (mt r) - Z.of_nat (mh r)) count
  | Some _ => false
  end.

Fixpoint fill_loop (fuel : nat) (count : Z) (r : reader) : reader :=
  match fuel with
  | O => r
  | S f => if loop_cond count r then fill_loop f count (fill_step count r) else r
  end.

Definition fill_fuel (r : reader) : nat := S (S (length (src r))).

(** [MessengerReader.fill] *)
Definition fill (count : Z) (r : reader) : reader * bool :=
  if Z.eqb count 0 then (r, true)
  else
    let r0 :=
      if Nat.leb (mt r) (mh r) then set_heads r (message r) 0 0 else r in
    if andb (Nat.leb (mt r) (mh r))
            (match err r with Some _ => true | None => false end)
    then (r0, false)
    else
      let r1 := fill_loop (fill_fuel r0) count r0 in
      (r1, Z.geb (Z.of_nat (mt r1) - Z.of_nat (mh r1)) count).

(** The result of one [Read(buf)] with [len(buf) = room]: the bytes placed
    in [buf], the error returned, and the callback invocations made. *)
Record read_result := {
  data : list Z;
  rerr : option error;
  calls : list (Z * list Z)
}.

Definition advance (r : reader) (k : nat) : reader :=
  set_heads r (message r) (mh r + k) (mt r).

(** The [for] loop of [MessengerReader.Read]; [out] is what has been
    copied into [buf] so far ([cnt = length out]) and [room] is
    [len(buf)]. *)
Fixpoint read_loop (fuel : nat) (room : nat) (out : list Z)
    (cbs : list (Z * list Z)) (r : reader) : reader * read_result :=
  match fuel with
  | O => (r, {| data := out; rerr := Some OutOfFuel; calls := cbs |})
  | S fuel' =>
    if Nat.eqb room 0 then (r, {| data := out; rerr := None; calls := cbs |})
    else
    let '(r, ok) := fill 1 r in
    if negb ok then (r, {| data := out; rerr := err r; calls := cbs |})
    else
    (* normal data, not the start of a message *)
    let step1 :=
      if negb (Z.eqb (nth_byte (message r) (mh r)) 0) then
        let mt' := if Nat.ltb room (mt r - mh r) then (mh r + room)%nat else mt r in
        match index_byte (slice (message r) (mh r) mt') 0 with
        | None =>
          let n := Nat.min room (mt r - mh r) in
          inr (advance r n,
               {| data := out ++ slice (message r) (mh r) (mh r + n);
                  rerr := None; calls := cbs |})
        | Some x =>
          inl (advance r x, (room - x)%nat,
               out ++ slice (message r) (mh r) (mh r + x))
        end
      else inl (r, room, out) in
    match step1 with
    | inr res => res
    | inl (r, room, out) =>
      (* m.message[m.mh] is a NUL at this point *)
      let '(r, ok) := fill 2 r in
      if negb ok then (r, {| data := out; rerr := err r; calls := cbs |})
      else if Z.eqb (nth_byte (message r) (mh r + 1)) 0 then
        read_loop fuel' (room - 1) (out ++ [0]) cbs (advance r 2)
      else if Nat.ltb 0 (length out) then
        (r, {| data := out; rerr := None; calls := cbs |})
      else
        let '(r, ok) := fill 6 r in
        if negb ok then (r, {| data := out; rerr := err r; calls := cbs |})
        else
        let m := message r in
        let h := mh r in
        let kind := nth_byte m (h + 1) in
        let count := Z.lor (Z.shiftl (nth_byte m (h + 2)) 24)
                      (Z.lor (Z.shiftl (nth_byte m (h + 3)) 16)
                       (Z.lor (Z.shiftl (nth_byte m (h + 4)) 8)
                              (nth_byte m (h + 5)))) in
        let r := advance r 6 in
        let '(r, ok) := fill count r in
        if negb ok then (r, {| data := []; rerr := err r; calls := cbs |})
        else
          let pay := slice (message r) (mh r) (mh r + Z.to_nat count) in
          read_loop fuel' room out (cbs ++ [(kind, pay)])
                    (advance r (Z.to_nat count))
    end
  end.

Definition read_fuel (r : reader) : nat :=
  S (S (length (src r) + (mt r - mh r))).

(** [MessengerReader.Read(buf)] with [len(buf) = room]. *)
Definition read (room : nat) (r : reader) : reader * read_result :=
  read_loop (read_fuel r) room [] [] r.

(** A caller loop as in [attach]: [Read] into a 32 KiB buffer until an
    error is returned, collecting the opaque data and the callbacks. *)
Fixpoint read_all_loop (fuel : nat) (room : nat) (r : reader)
    (acc : list Z) (cbs : list (Z * list Z)) :
    list Z * list (Z * list Z) * option error :=
  match fuel with
  | O => (acc, cbs, Some OutOfFuel)
  | S f =>
    let '(r', res) := read room r in
    let acc' := acc ++ data res in
    let cbs' := cbs ++ calls res in
    match rerr res with
    | Some e => (acc', cbs', Some e)
    | None => read_all_loop f room r' acc' cbs'
    end
  end.

Definition read_all (stream : list Z) :=
  read_all_loop (S (S (length stream))) (32 * 1024) (new_reader stream) [] [].

(** What the spec's round trip asks of the reader: the opaque bytes of
    the items in order, and the messages in order. *)
Definition opaque_of (items : list item) : list Z :=
  flat_map (fun i => match i with Data b => b | Msg _ _ => [] end) items.

Definition messages_of (items : list item) : list (Z * list Z) :=
  flat_map (fun i => match i with Data _ => [] | Msg k p => [(k, p)] end) items.

(** A reader whose buffer is shorter than [count], its tail inside it:
    the state [fill(count)] finds when the advertised length is above
    the capacity.  (The buffer never reaches [count]: the tail stays inside a buffer
    shorter than [count].) *)
Definition short (count : Z) (r : reader) : Prop :=
  (mt r <= length (message r))%nat /\ Z.of_nat (length (message r)) < count.

End Messenger.

(** ** Escape / screen buffer: escape.go *)
Module Escape.
Import Go.

(** A Go byte slice with its length (the list) and its capacity. *)
Record slice := { sd : list Z; sc : nat }.

Definition nil_slice : slice := {| sd := []; sc := 0 |}.

(** [append(s, xs...)]: within the capacity the capacity is kept;
    beyond it the runtime grows it (doubling, or to the needed length,
    as [growslice] does before rounding to a size class). *)
Definition go_append (s : slice) (xs : list Z) : slice :=
  let need := (length (sd s) + length xs)%nat in
  {| sd := sd s ++ xs;
     sc := if Nat.leb need (sc s) then sc s
           else if Nat.ltb (2 * sc s) need then need else (2 * sc s)%nat |}.

(** [appendto(old, new)]; [None] is the runtime panic of [old[extra:]]
    when [extra > len(old)]. *)
Definition appendto (old : slice) (new : list Z) : option slice :=
  let nl := length new in
  let ol := length (sd old) in
  let oc := sc old in
  if Nat.eqb nl 0 then Some old
  else if Nat.leb oc nl then Some {| sd := skipn (nl - oc) new; sc := oc |}
  else if Nat.ltb (nl + ol) oc then Some {| sd := sd old ++ new; sc := oc |}
  else
    let e := if Nat.ltb (oc / 8) 1024
             then (if Nat.eqb (oc / 8) 0 then 1 else oc / 8)%nat
             else 1024%nat in
    let extra := (nl + ol - oc + e)%nat in
    if Nat.ltb ol extra then None
    else Some {| sd := skipn extra (sd old) ++ new; sc := oc |}.

(** The mutable fields of [EscapeBuffer]; [inseq] holds the index of the
    copied [seqCall] and its [seen] bytes. *)
Record ebuf := {
  normal : slice;
  alt : slice;
  partial : slice;
  inalt : bool;
  inseq : option (nat * list Z)
}.

Definition set_normal (e : ebuf) (s : slice) : ebuf :=
  {| normal := s; alt := alt e; partial := partial e; inalt := inalt e; inseq := inseq e |}.
Definition set_alt (e : ebuf) (s : slice) : ebuf :=
  {| normal := normal e; alt := s; partial := partial e; inalt := inalt e; inseq := inseq e |}.
Definition set_partial (e : ebuf) (s : slice) : ebuf :=
  {| normal := normal e; alt := alt e; partial := s; inalt := inalt e; inseq := inseq e |}.
Definition set_inalt (e : ebuf) (b : bool) : ebuf :=
  {| normal := normal e; alt := alt e; partial := partial e; inalt := b; inseq := inseq e |}.
Definition set_inseq (e : ebuf) (q : option (nat * list Z)) : ebuf :=
  {| normal := normal e; alt := alt e; partial := partial e; inalt := inalt e; inseq := q |}.

Record seqCall := {
  seq : list Z;
  term : list Z;
  callback : ebuf -> list Z -> ebuf * bool
}.

(** The fields fixed once the sequences are registered. *)
Record config := { firstBytes : list Z; sequences : list seqCall }.

(** [NewEscapeBuffer(n)] *)
Definition NewEscapeBuffer (n : Z) : ebuf :=
  let n := if Z.leb n 0 then 1024 * 1024 else n in
  {| normal := {| sd := []; sc := Z.to_nat n |};
     alt := {| sd := []; sc := Z.to_nat n |};
     partial := nil_slice; inalt := false; inseq := None |}.

(** [AddSequence(seq, f)] *)
Definition AddSequence (c : config) (s : list Z) (f : ebuf -> ebuf * bool) : config :=
  match s with
  | [] => c
  | b :: _ =>
    {| firstBytes := if existsb (Z.eqb b) (firstBytes c) then firstBytes c
                     else firstBytes c ++ [b];
       sequences := sequences c ++ [{| seq := s; term := []; callback := fun e _ => f e |}] |}
  end.

Definition empty_config : config := {| firstBytes := []; sequences := [] |}.

(** The [add] closure of [Write]: it appends to [alt] when [inalt] held
    on entry to [Write], to [normal] otherwise. *)
Definition add (to_alt : bool) (e : ebuf) (b : list Z) : option ebuf :=
  if to_alt then option_map (set_alt e) (appendto (alt e) b)
  else option_map (set_normal e) (appendto (normal e) b).

Fixpoint list_eqb (a b : list Z) : bool :=
  match a, b with
  | [], [] => true
  | x :: a', y :: b' => Z.eqb x y && list_eqb a' b'
  | _, _ => false
  end.

Fixpoint is_prefix (p s : list Z) : bool :=
  match p, s with
  | [], _ => true
  | x :: p', y :: s' => Z.eqb x y && is_prefix p' s'
  | _, _ => false
  end.

(** [bytes.Index(s, sep)] *)
Fixpoint index (s sep : list Z) : option nat :=
  if is_prefix sep s then Some O
  else match s with
       | [] => None
       | _ :: s' => option_map S (index s' sep)
       end.

(** [bytes.IndexAny(s, chars)] for an ASCII [chars]. *)
Fixpoint index_any (s chars : list Z) : option nat :=
  match s with
  | [] => None
  | x :: s' => if existsb (Z.eqb x) chars then Some O
               else option_map S (index_any s' chars)
  end.

(** The outcome of the scan over [e.sequences] in the [Loop] of
    [Write]. *)
Inductive scan :=
| Matched (i : nat) (s : seqCall)
| NoMatch (maxPartial : nat).

Fixpoint scan_seqs (i : nat) (ss : list seqCall) (buf : list Z) (maxp : nat) : scan :=
  match ss with
  | [] => NoMatch maxp
  | s :: ss' =>
    if Nat.leb (length (seq s)) (length buf) then
      if list_eqb (firstn (length (seq s)) buf) (seq s) then Matched i s
      else scan_seqs (S i) ss' buf maxp
    else if list_eqb (firstn (length buf) (seq s)) buf then
      scan_seqs (S i) ss' buf (if Nat.ltb maxp (length (seq s)) then length (seq s) else maxp)
    else scan_seqs (S i) ss' buf maxp
  end.

Local Notation "'let*' x := a 'in' b" :=
  (match a with Some x => b | None => None end)
  (at level 200, x pattern, a at level 100, b at level 200).

Section Write.
Variable cfg : config.

(** [Loop:] of [EscapeBuffer.Write]; [to_alt] is the buffer [add] was
    bound to on entry. *)
Fixpoint loop (fuel : nat) (to_alt : bool) (e : ebuf) (buf : list Z) : option ebuf :=
  match fuel with
  | O => Some e
  | S fuel' =>
    let* (e, buf) :=
      match inseq e with
      | Some (j, seen) =>
        let t := term (nth j (sequences cfg) {| seq := []; term := []; callback := fun e _ => (e, false) |}) in
        let cb := callback (nth j (sequences cfg) {| seq := []; term := []; callback := fun e _ => (e, false) |}) in
        match index buf t with
        | None => Some (set_inseq e (Some (j, seen ++ buf)), None)
        | Some x =>
          let seen' := seen ++ firstn x buf in
          let e := set_inseq e (Some (j, seen')) in
          let '(e, keep) := cb e seen' in
          let* e := if keep then add to_alt e seen' else Some e in
          Some (set_inseq e None, Some buf)
        end
      | None => Some (e, Some buf)
      end in
    match buf with
    | None => Some e
    | Some buf =>
      match index_any buf (firstBytes cfg) with
      | None => add to_alt e buf
      | Some x =>
        let* e := add to_alt e (firstn x buf) in
        let buf := skipn x buf in
        let e := set_partial e nil_slice in
        match scan_seqs 0 (sequences cfg) buf 0 with
        | Matched i s =>
          let* e :=
            if Nat.ltb 0 (length (term s)) then Some (set_inseq e (Some (i, [])))
            else let '(e, keep) := callback s e [] in
                 if keep then add to_alt e (seq s) else Some e in
          loop fuel' to_alt e (skipn (length (seq s)) buf)
        | NoMatch maxp =>
          if Nat.ltb 0 maxp then Some (set_partial e {| sd := buf; sc := maxp |})
          else
            let* e := add to_alt e (firstn 1 buf) in
            loop fuel' to_alt e (skipn 1 buf)
        end
      end
    end
  end.

Definition loop_fuel (buf : list Z) : nat := S (S (2 * length buf)).

(** [Write] entered with an empty [partial] (the recursive call). *)
Definition write_nopartial (e : ebuf) (buf : list Z) : option ebuf :=
  let to_alt := inalt e in
  match firstBytes cfg with
  | [] => add to_alt e buf
  | _ => loop (loop_fuel buf) to_alt e buf
  end.

(** [for len(buf) > 0 && len(e.partial) > 0 { ... e.Write(ep) }] *)
Fixpoint partial_loop (fuel : nat) (e : ebuf) (buf : list Z) : option (ebuf * list Z) :=
  match fuel with
  | O => Some (e, buf)
  | S fuel' =>
    match buf, sd (partial e) with
    | _ :: _, _ :: _ =>
      let pl := length (sd (partial e)) in
      let i := Nat.min (sc (partial e) - pl) (length buf) in
      let ep := sd (partial e) ++ firstn i buf in
      let buf := skipn i buf in
      let* e := write_nopartial (set_partial e nil_slice) ep in
      partial_loop fuel' e buf
    | _, _ => Some (e, buf)
    end
  end.

(** [EscapeBuffer.Write(buf)]; [None] is a runtime panic. *)
Definition Write (e : ebuf) (buf : list Z) : option ebuf :=
  let to_alt := inalt e in
  match firstBytes cfg with
  | [] => add to_alt e buf
  | _ =>
    let* (e, buf) := partial_loop (S (length buf)) e buf in
    match sd (partial e) with
    | _ :: _ => Some e
    | [] => loop (loop_fuel buf) to_alt e buf
    end
  end.

(** A sequence of [Write] calls. *)
Fixpoint writes (e : ebuf) (bufs : list (list Z)) : option ebuf :=
  match bufs with
  | [] => Some e
  | b :: bs => let* e := Write e b in writes e bs
  end.
End Write.

(** The observable state: [normal], [alt] and [inalt]. *)
Definition view (e : ebuf) : list Z * list Z * bool := (sd (normal e), sd (alt e), inalt e).

End Escape.

(** ** The shell's escape sequences: shell.go *)
Module ShellEsc.
Import Escape.

Definition bytes_of_string (s : string) : list Z :=
  map (fun a => Z.of_nat (nat_of_ascii a)) (list_ascii_of_string s).

Definition esc : string := String (ascii_of_nat 27) EmptyString.

Definition scasb : list Z := bytes_of_string (esc ++ "[?1049h").
Definition nsbrc : list Z := bytes_of_string (esc ++ "[?1049l").
Definition cls : list Z :=
  nsbrc ++ bytes_of_string (esc ++ "[J" ++ esc ++ "[3J" ++ esc ++ "[J").
Definition edall : list Z := bytes_of_string (esc ++ "[2J").
Definition edsaved : list Z := bytes_of_string (esc ++ "[3J").
Definition home : list Z := bytes_of_string (esc ++ "[H").
Definition sendSSH : list Z := bytes_of_string (esc ++ "[z").

Definition truncate0 (s : slice) : slice := {| sd := []; sc := sc s |}.

(** The sequences [NewShell] registers on [s.eb], in order. *)
Definition shell_config : config :=
  let c := AddSequence empty_config sendSSH (fun eb => (eb, false)) in
  let c := AddSequence c scasb (fun eb => (set_inalt eb true, false)) in
  let c := AddSequence c nsbrc (fun eb => (set_inalt eb false, false)) in
  let c := AddSequence c edsaved (fun eb =>
    if negb (inalt eb) then
      (set_normal eb (go_append (go_append (truncate0 (normal eb)) nsbrc) edall), false)
    else (eb, false)) in
  let c := AddSequence c edall (fun eb =>
    if inalt eb then
      (set_alt eb (go_append (go_append (truncate0 (alt eb)) home) edall), false)
    else (eb, false)) in
  c.

(** [s.eb] of a fresh [NewShell]: [NewEscapeBuffer(0)]. *)
Definition shell_eb : ebuf := NewEscapeBuffer 0.

End ShellEsc.

(** ** Clients and the shell: client.go, screen.go, shell.go, server.go *)
Module Shell.

(** [messageKind] values used here (the [iota] order of shell.go). *)
Definition dataMessage : Z := 0.
Definition countMessage : Z := 7.
Definition startMessage : Z := 4.
Definition preemptMessage : Z := 12.
Definition primaryMessage : Z := 13.

(** An [mBuffer] of the mailbox. *)
Definition mbuffer : Type := (Z * list Z)%type.

(** The fields of [Client] the properties below are about. *)
Record client := {
  cname : string;
  buffers : list mbuffer;
  primary : bool
}.

(** [NewClient(out)] *)
Definition NewClient : client := {| cname := ""; buffers := []; primary := false |}.

(** [Client.Send] (and [SendLocked], which differs only in locking):
    a zero-length data item is dropped, anything else is queued. *)
Definition Send (c : client) (kind : Z) (buf : list Z) : client * bool :=
  if andb (Z.eqb kind 0) (Nat.eqb (length buf) 0) then (c, true)
  else ({| cname := cname c; buffers := buffers c ++ [(kind, buf)];
           primary := primary c |}, true).

(** [Client.Output] *)
Definition Output (c : client) (buf : list Z) : client * bool := Send c dataMessage buf.

Definition set_primary (c : client) (b : bool) : client :=
  {| cname := cname c; buffers := buffers c; primary := b |}.

(** Clients are pointers: [store] maps each client to its current
    fields, [clients] is the key set of [s.clients] and [pids] the
    [s.pids] map as an association list. *)
Record shell := {
  clients : list nat;
  store : nat -> client;
  pids : list (Z * nat);
  eb : Escape.ebuf
}.

Definition upd (st : nat -> client) (c : nat) (v : client) : nat -> client :=
  fun x => if Nat.eqb x c then v else st x.

Definition set_store (s : shell) (st : nat -> client) : shell :=
  {| clients := clients s; store := st; pids := pids s; eb := eb s |}.
Definition set_clients (s : shell) (cs : list nat) : shell :=
  {| clients := cs; store := store s; pids := pids s; eb := eb s |}.
Definition set_pids (s : shell) (ps : list (Z * nat)) : shell :=
  {| clients := clients s; store := store s; pids := ps; eb := eb s |}.

(** Calling [Send] on the client [c] of the store. *)
Definition send_to (s : shell) (c : nat) (kind : Z) (buf : list Z) : shell * bool :=
  let '(v, ok) := Send (store s c) kind buf in
  (set_store s (upd (store s) c v), ok).

(** [s.clients[c] = struct{}{}] *)
Definition map_add (cs : list nat) (c : nat) : list nat :=
  if existsb (Nat.eqb c) cs then cs else cs ++ [c].

(** [Shell.Attach(c)] *)
Definition Attach (s : shell) (c : nat) : shell * Z :=
  let '(s, _) := send_to s c startMessage [] in
  let buf := ShellEsc.cls ++ Escape.sd (Escape.normal (eb s)) in
  let '(s, ok) := send_to s c dataMessage buf in
  if negb ok then (s, Z.of_nat (length (clients s)))
  else
    let r :=
      if Escape.inalt (eb s) then
        let '(s, _) := send_to s c dataMessage ShellEsc.scasb in
        let buf := Escape.sd (Escape.alt (eb s)) in
        let '(s, ok) := send_to s c dataMessage buf in
        if negb ok then inr (s, Z.of_nat (length (clients s))) else inl s
      else inl s in
    match r with
    | inr res => res
    | inl s =>
      let s := set_clients s (map_add (clients s) c) in
      (s, Z.of_nat (length (clients s)) - 1)
    end.

(** [Shell.detach(c)] *)
Definition detach (s : shell) (c : nat) : shell :=
  set_clients s (filter (fun x => negb (Nat.eqb x c)) (clients s)).

(** The loop of [Take] over [s.clients]. *)
Fixpoint preempt_others (st : nat -> client) (cs : list nat) (c : nat) : nat -> client :=
  match cs with
  | [] => st
  | oc :: cs' =>
    let st :=
      if Nat.eqb oc c then st
      else if primary (st oc) then
        upd st oc (fst (Send (set_primary (st oc) false) preemptMessage []))
      else st in
    preempt_others st cs' c
  end.

(** [Shell.Take(c, requestSize)]; [requestSize] is not used. *)
Definition Take (s : shell) (c : nat) : shell :=
  if primary (store s c) then s
  else
    let st := preempt_others (store s) (clients s) c in
    let v := fst (Send (set_primary (st c) true) primaryMessage []) in
    set_store s (upd st c v).

(** [Shell.AddPid(client, pid)]: [s.pids[pid] = client]. *)
Definition AddPid (s : shell) (c : nat) (pid : Z) : shell :=
  set_pids s ((pid, c) :: filter (fun '(p, _) => negb (Z.eqb p pid)) (pids s)).

(** [Shell.Count()], [alive pid] standing for [syscall.Kill(pid, 0) == nil]. *)
Definition Count (alive : Z -> bool) (s : shell) : shell * nat :=
  let s' := fold_left (fun s '(pid, c) =>
              if alive pid then s
              else detach (set_pids s (filter (fun '(p, _) => negb (Z.eqb p pid)) (pids s))) c)
            (pids s) s in
  (s', length (pids s')).

(** [strconv.Itoa] / [%d] for a non-negative number. *)
Fixpoint digits (fuel : nat) (n : Z) (acc : string) : string :=
  match fuel with
  | O => acc
  | S f =>
    let acc := String (ascii_of_nat (48 + Z.to_nat (n mod 10))) acc in
    if Z.ltb n 10 then acc else digits f (n / 10) acc
  end.

Definition itoa (n : Z) : string :=
  if Z.ltb n 0 then String "-" (digits 64 (- n) EmptyString)
  else digits 64 n EmptyString.

(** The [askCountMessage] case of [Shell.attach], the server that
    [Session.shell] runs on the listener of [Session.Listen]:
    [mw.Sendf(countMessage, "%d", s.Count())].  The shell after the
    call to [Count], and the message sent. *)
Definition askCount_reply (alive : Z -> bool) (s : shell) : shell * (Z * list Z) :=
  let '(s, n) := Count alive s in
  (s, (countMessage, ShellEsc.bytes_of_string (itoa (Z.of_nat n)))).

(** The reply the spec describes: the number of attached clients whose
    registered pid is alive. *)
Definition live_attached (alive : Z -> bool) (s : shell) : nat :=
  length (filter (fun c => existsb (fun '(p, c') => andb (Nat.eqb c c') (alive p)) (pids s))
                 (clients s)).

(** The opaque bytes of mailbox items, in order. *)
Definition data_of (items : list mbuffer) : list Z :=
  flat_map (fun '(k, b) => if Z.eqb k 0 then b else []) items.

(** At most one attached client has its primary flag set. *)
Definition one_primary (s : shell) : Prop :=
  forall a b, In a (clients s) -> In b (clients s) ->
    primary (store s a) = true -> primary (store s b) = true -> a = b.

(** The states a shell goes through: it starts with no client attached;
    [attach] attaches a new client ([NewClient]: not primary); a client
    is detached (its read loop ending, [exclusive], or [Count]); [Take]
    runs for a keystroke or a [ttysize] from any client whose read loop
    is still running, attached or not; messages are queued; pids are
    registered or swept; the PTY output loop rewrites [s.eb]. *)
Inductive reachable : shell -> Prop :=
| reach_init (st : nat -> client) (ps : list (Z * nat)) (e : Escape.ebuf) :
    reachable {| clients := []; store := st; pids := ps; eb := e |}
| reach_attach (s : shell) (c : nat) :
    reachable s -> primary (store s c) = false -> reachable (fst (Attach s c))
| reach_detach (s : shell) (c : nat) : reachable s -> reachable (detach s c)
| reach_take (s : shell) (c : nat) : reachable s -> reachable (Take s c)
| reach_send (s : shell) (c : nat) (k : Z) (b : list Z) :
    reachable s -> reachable (fst (send_to s c k b))
| reach_addpid (s : shell) (c : nat) (p : Z) : reachable s -> reachable (AddPid s c p)
| reach_count (alive : Z -> bool) (s : shell) : reachable s -> reachable (fst (Count alive s))
| reach_output (s : shell) (e : Escape.ebuf) :
    reachable s -> reachable {| clients := clients s; store := store s; pids := pids s; eb := e |}.

End Shell.

(** ** Sessions: session.go *)
Module Session.

(** What [ValidSessionName]'s [range] yields: an ASCII byte is a rune of
    its own; a byte >= 0x80 starts a rune >= 0x80 (or [utf8.RuneError])
    that takes it and the continuation bytes after it, and whose
    [string(c)] is made of bytes >= 0x80. *)
Inductive rune := RAscii (a : ascii) | RWide (bytes : list ascii).

Definition is_cont (a : ascii) : bool :=
  andb (Nat.leb 128 (nat_of_ascii a)) (Nat.ltb (nat_of_ascii a) 192).

Fixpoint take_cont (n : nat) (l : list ascii) : list ascii * list ascii :=
  match n, l with
  | S n', a :: l' => if is_cont a then let '(x, y) := take_cont n' l' in (a :: x, y) else ([], l)
  | _, _ => ([], l)
  end.

Fixpoint runes_aux (fuel : nat) (l : list ascii) : list rune :=
  match fuel, l with
  | O, _ => []
  | _, [] => []
  | S f, a :: l' =>
    if Nat.ltb (nat_of_ascii a) 128 then RAscii a :: runes_aux f l'
    else let '(cs, rest) := take_cont 3 l' in RWide (a :: cs) :: runes_aux f rest
  end.

Definition runes (s : string) : list rune :=
  runes_aux (String.length s) (list_ascii_of_string s).

Definition rune_string (r : rune) : string :=
  match r with
  | RAscii a => String a EmptyString
  | RWide bs => string_of_list_ascii bs
  end.

(** [strings.Contains(s, sub)] *)
Fixpoint contains (s sub : string) : bool :=
  if String.prefix sub s then true
  else match s with
       | EmptyString => false
       | String _ s' => contains s' sub
       end.

Definition validBytes : string :=
  "0123456789abcdefghijklmnopqrstuvwxyzABCDEFGHIJKLMNOPQRSTUVWXYZ_-.+!=:[]<>{}".

(** [ValidSessionName(name)] *)
Definition ValidSessionName (name : string) : bool :=
  if String.eqb name "log" then false
  else forallb (fun c => contains validBytes (rune_string c)) (runes name).

(** The set the spec names: [0-9A-Za-z_\-.+!=:\[\]<>{}]. *)
Definition in_name_set (a : ascii) : bool :=
  let n := nat_of_ascii a in
  (Nat.leb 48 n && Nat.leb n 57) || (Nat.leb 65 n && Nat.leb n 90) ||
  (Nat.leb 97 n && Nat.leb n 122) ||
  existsb (fun b => Ascii.eqb a b) (list_ascii_of_string "_-.+!=:[]<>{}").

(** The on-disk and network state [Listen] touches: the session
    directory ([None] once removed) with its files, the listener and
    whether it is closed, and whether the process has exited. *)
Record world := {
  dir : option (list (string * string));
  listener : option (string * bool);
  exited : bool
}.

(** The environment's answers: the address [net.ListenTCP] binds
    ([None]: it fails), and the error, if any, of writing each file. *)
Record env := {
  bind : option string;
  write_err : string -> option string;
  self_pid : Z
}.

Inductive result := Ok (addr : string) | Err (e : string) | Exited.

(** [Session.writefile(name, data)] ([ioutil.WriteFile]): it fails when
    the directory is missing; a failed write may leave the file in any
    state, here truncated. *)
Definition writefile (v : env) (w : world) (name data : string) : world * option string :=
  let put c := match dir w with
               | Some fs => Some ((name, c) :: filter (fun '(n, _) => negb (String.eqb n name)) fs)
               | None => None
               end in
  match dir w, write_err v name with
  | None, _ => (w, Some "open: no such file or directory"%string)
  | Some _, None => ({| dir := put data; listener := listener w; exited := exited w |}, None)
  | Some _, Some e => ({| dir := put EmptyString; listener := listener w; exited := exited w |}, Some e)
  end.

(** [Session.Remove()]: [os.RemoveAll(s.path)]. *)
Definition Remove (w : world) : world :=
  {| dir := None; listener := listener w; exited := exited w |}.

Definition close_listener (w : world) : world :=
  {| dir := dir w;
     listener := option_map (fun '(a, _) => (a, true)) (listener w);
     exited := exited w |}.

(** [Session.Listen()] *)
Definition Listen (v : env) (w : world) : world * result :=
  match bind v with
  | None => ({| dir := dir w; listener := listener w; exited := true |}, Exited)
  | Some a =>
    let w := {| dir := dir w; listener := Some (a, false); exited := exited w |} in
    let '(w, e1) := writefile v w "addr" a in
    match e1 with
    | Some e => (close_listener (Remove w), Err e)
    | None =>
      let '(w, e2) := writefile v w "pid" (Shell.itoa (self_pid v)) in
      match e2 with
      | Some e => (close_listener (Remove w), Err e)
      | None => (w, Ok a)
      end
    end
  end.

Definition file (w : world) (name : string) : option string :=
  match dir w with
  | None => None
  | Some fs => option_map snd (find (fun '(n, _) => String.eqb n name) fs)
  end.

End Session.

(** ** The writers of a connection: messenger.go, client.go *)
Module Writer.
Import Go Messenger.

(** The [io.Writer] under a [MessengerWriter] (the connection): what it has
    been given so far and how many more bytes it accepts.  [Write(p)] takes
    [min(len(p), budget)] bytes and returns an error when that is short of
    [len(p)]. *)
Record sink := { wout : list Z; budget : nat }.

Definition sink_write (w : sink) (p : list Z) : sink * nat * bool :=
  let n := Nat.min (length p) (budget w) in
  ({| wout := wout w ++ firstn n p; budget := budget w - n |}, n, Nat.ltb n (length p)).

(** The [for x >= 0] loop of [MessengerWriter.Write] entered with [x]
    the index of a NUL of [buf], followed by the final [m.w.Write(buf)];
    the result is the sink, [cnt] and whether an error was returned. *)
Fixpoint mw_write_loop (fuel : nat) (w : sink) (buf : list Z) (x : nat) (cnt : Z)
    : sink * Z * bool :=
  match fuel with
  | O => (w, cnt, true)
  | S f =>
    let '(w, n, err) := sink_write w (firstn (x + 1) buf) in
    let cnt := cnt + Z.of_nat n in
    if err then (w, cnt, true)
    else
      let cnt := cnt - 1 in
      let buf := skipn x buf in
      match index_byte (skipn 1 buf) 0 with
      | None =>
        let '(w, n, err) := sink_write w buf in (w, cnt + Z.of_nat n, err)
      | Some x => mw_write_loop f w buf (S x) cnt
      end
  end.

(** [MessengerWriter.Write(buf)] *)
Definition mw_Write (w : sink) (buf : list Z) : sink * Z * bool :=
  match index_byte buf 0 with
  | None => let '(w, n, err) := sink_write w buf in (w, Z.of_nat n, err)
  | Some x => mw_write_loop (S (length buf)) w buf x 0
  end.

Definition oneK : nat := 1024.

(** [MessengerWriter.Send(kind, buf)] *)
Definition mw_Send (w : sink) (kind : Z) (buf : list Z) : sink * Z * bool :=
  if Z.eqb kind 0 then mw_Write w buf
  else
    let msg := repeat 0 oneK in
    let count := Z.of_nat (length buf) in
    (* msg[0] .. msg[5] *)
    let msg := header kind count ++ skipn 6 msg in
    let '(msg, n) := copy_at msg 6 buf in
    let '(w, wn, err) := sink_write w (firstn (n + 6) msg) in
    let wv := Z.of_nat wn - 6 in
    if Z.leb wv 0 then (w, 0, err)
    else if Z.ltb wv (Z.of_nat n) then (w, wv, err)
    else if Nat.ltb n (length buf) then
      let '(w, wn2, err2) := sink_write w (skipn n buf) in
      (w, Z.of_nat n + Z.of_nat wn2, err2)
    else (w, Z.of_nat n, err).

Definition set_buffers (c : Shell.client) (bs : list Shell.mbuffer) : Shell.client :=
  {| Shell.cname := Shell.cname c; Shell.buffers := bs; Shell.primary := Shell.primary c |}.

(** The inner loop of [Client.runout] with [c.out] a [MessengerWriter]:
    [nextBuf] pops the mailbox (an empty mailbox gives [mBuffer{}]); a
    kind-0 item with no data ends the loop, the other kind-0 items go to
    [Write] and the rest to [Send].  A [nil] and an empty non-[nil] data
    slice are both the empty list here; [Client.Send] never queues an empty
    kind-0 item. *)
Fixpoint drain (fuel : nat) (c : Shell.client) (w : sink) : Shell.client * sink :=
  match fuel with
  | O => (c, w)
  | S f =>
    match Shell.buffers c with
    | [] => (c, w)
    | (k, d) :: rest =>
      let c := set_buffers c rest in
      if andb (Z.eqb k 0) (Nat.eqb (length d) 0) then (c, w)
      else if Z.eqb k 0 then drain f c (fst (fst (mw_Write w d)))
      else drain f c (fst (fst (mw_Send w k d)))
    end
  end.

(** A mailbox entry as the writer item it is handed over as. *)
Definition item_of (m : Shell.mbuffer) : item :=
  let '(k, d) := m in if Z.eqb k 0 then Data d else Msg k d.

End Writer.

(** ** [strconv.Atoi] and the parsers of count replies: session.go, select.go *)
Module Strconv.

Definition is_digit (a : ascii) : bool :=
  andb (Nat.leb 48 (nat_of_ascii a)) (Nat.leb (nat_of_ascii a) 57).

(** The decimal digits loop of [ParseUint], on unbounded integers. *)
Fixpoint digits_val (l : list ascii) (acc : Z) : option Z :=
  match l with
  | [] => Some acc
  | a :: l' =>
    if is_digit a then digits_val l' (acc * 10 + Z.of_nat (nat_of_ascii a - 48))
    else None
  end.

(** [strconv.Atoi(s)] with a 64-bit [int]: the value and whether the
    error is [nil].  A syntax error gives 0; a value out of range gives the
    nearest bound, as [ParseInt] does. *)
Definition Atoi (s : string) : Z * bool :=
  let l := list_ascii_of_string s in
  let '(neg, ds) :=
    match l with
    | a :: r =>
      if Ascii.eqb a "-"%char then (true, r)
      else if Ascii.eqb a "+"%char then (false, r)
      else (false, l)
    | [] => (false, [])
    end in
  match ds with
  | [] => (0, false)
  | _ =>
    match digits_val ds 0 with
    | None => (0, false)
    | Some u =>
      let v := if neg then - u else u in
      if Z.ltb v (- 2 ^ 63) then (- 2 ^ 63, false)
      else if Z.leb (2 ^ 63) v then (2 ^ 63 - 1, false)
      else (v, true)
    end
  end.

(** The end of [Session.Check]: the [countMessage] payload [msg] returned
    by [Command] is accepted when [strconv.Atoi(msg)] succeeds, and its
    value becomes [s.cnt]. *)
Definition Check_count (msg : string) : option Z :=
  let '(cnt, ok) := Atoi msg in if ok then Some cnt else None.

(** The parse of the [countMessage] payload in [CheckSession]: the count,
    the pid, and whether the error is [nil]. *)
Definition CheckSession_parse (msg : string) : Z * Z * bool :=
  match msg with
  | String a EmptyString => (Z.of_nat (nat_of_ascii a), 0, true)
  | _ =>
    match String.index 0 ":" msg with
    | None => (0, 0, true)
    | Some x =>
      let '(cnt, ok1) := Atoi (substring 0 x msg) in
      let '(pid, ok2) := Atoi (substring (S x) (String.length msg - S x) msg) in
      (cnt, pid, andb ok1 ok2)
    end
  end.

End Strconv.

(** ** Reading the session files: session.go *)
Module SessionFiles.
Import Session.

(** [Session.Pid()] *)
Definition Pid (w : world) : Z * bool :=
  match file w "pid" with
  | None => (0, false)
  | Some data =>
    let '(pid, ok) := Strconv.Atoi data in
    if ok then (pid, true) else (0, false)
  end.

(** [Session.Addr()] *)
Definition Addr (w : world) : string :=
  match file w "addr" with
  | Some data => data
  | None => EmptyString
  end.

End SessionFiles.

(** ** Window sizes, forward requests and the escape character: util.go,
    screen.go, server.go *)
Module Util.
Import Go.

(** [encodeSize(rows, cols)] *)
Definition encodeSize (rows cols : Z) : list Z :=
  [Z.shiftr rows 8 mod 256; rows mod 256; Z.shiftr cols 8 mod 256; cols mod 256].

(** [decodeSize(buf)]; [None] is the index panic of a buffer shorter
    than 4 bytes. *)
Definition decodeSize (buf : list Z) : option (Z * Z) :=
  if Nat.ltb (length buf) 4 then None
  else Some (Z.lor (Z.shiftl (nth_byte buf 0) 8) (nth_byte buf 1),
             Z.lor (Z.shiftl (nth_byte buf 2) 8) (nth_byte buf 3)).

(** The [ttysizeMessage] case of [attach] after [s.Take]: a payload that is
    not 4 bytes long is refused ([None], an error sent back), else it is
    decoded. *)
Definition ttysize_payload (msg : list Z) : option (Z * Z) :=
  if negb (Nat.eqb (length msg) 4) then None else decodeSize msg.

(** The payload [clientCommand] sends for a forwarded variable:
    [fmt.Sprintf("%s\000%s", name, value)]. *)
Definition forward_payload (name value : list Z) : list Z := name ++ 0 :: value.

(** The [forwardMessage] case of [attach]: [None] is the
    [BAD FORWARD MESSAGE] reply, [Some (name, socket)] the call
    [SetForwarder(name, socket)]. *)
Definition parse_forward (msg : list Z) : option (list Z * list Z) :=
  match index_byte msg 0 with
  | None | Some O => None
  | Some x =>
    let name := firstn x msg in
    let socket := skipn (S x) msg in
    if orb (Nat.eqb (length name) 0) (Nat.eqb (length socket) 0) then None
    else Some (name, socket)
  end.

Definition byte_of (a : ascii) : Z := Z.of_N (N_of_ascii a).
Definition char_of (c : Z) : ascii := ascii_of_N (Z.to_N c).

Section EscapeChar.
(** [strconv.QuoteRune(rune(c))] with its quotes removed, and the string
    [strconv.Unquote] returns ([""] on error). *)
Variable QuoteRune_inner : Z -> string.
Variable Unquote : string -> string.

(** [printEscape(c)] for a byte [c]. *)
Definition printEscape (c : Z) : string :=
  if Z.ltb c 32 then String "^" (String (char_of (c + 64)) EmptyString)
  else if Z.leb c 126 then String (char_of c) EmptyString
  else QuoteRune_inner c.

Definition dquote : ascii := ascii_of_nat 34.

(** [parseEscapeChar(echar)]: the byte and the [ok] result. *)
Definition parseEscapeChar (echar : string) : Z * bool :=
  let fallback :=
    let echar :=
      match echar with
      | String a _ => if Ascii.eqb a dquote then echar
                      else String dquote (echar ++ String dquote EmptyString)
      | EmptyString => echar
      end in
    match Unquote echar with
    | String a EmptyString => (byte_of a, true)
    | _ => (0, false)
    end in
  match echar with
  | EmptyString => (0, true)
  | String a EmptyString => (byte_of a, true)
  | String a (String b EmptyString) =>
    if Ascii.eqb a "^"%char then (Z.land (byte_of b) 31, true)
    else if String.eqb echar "\0" then (0, true)
    else fallback
  | _ => fallback
  end.
End EscapeChar.

End Util.

(** ** The environment of the shell: shell.go *)
Module Env.



End Env.

(** ** The PTY output loop and sequence registration: shell.go, escape.go *)
Module Runout.
Import Shell.

(** [for c := range s.clients { if !c.Output(nbuf) { s.detach(c) } }] *)
Fixpoint output_all (s : shell) (cs : list nat) (buf : list Z) : shell :=
  match cs with
  | [] => s
  | c :: cs' =>
    let '(v, ok) := Output (store s c) buf in
    let s := set_store s (upd (store s) c v) in
    output_all (if ok then s else detach s c) cs' buf
  end.

(** One turn of [Shell.runout] for a read of [buf] ([r > 0] bytes, no read
    error): [s.eb.Write(buf[:r])], then a copy of the bytes to every
    client.  [None] is a panic of [eb.Write]. *)
Definition runout_chunk (s : shell) (buf : list Z) : option shell :=
  match Escape.Write ShellEsc.shell_config (eb s) buf with
  | None => None
  | Some e =>
    Some (output_all {| clients := clients s; store := store s; pids := pids s; eb := e |}
                     (clients s) buf)
  end.

(** [EscapeBuffer.AddReportSequence(seq, term, f)] *)
Definition AddReportSequence (c : Escape.config) (s t : list Z)
    (f : Escape.ebuf -> list Z -> Escape.ebuf * bool) : Escape.config :=
  match s with
  | [] => c
  | b :: _ =>
    match t with
    | [] => Escape.AddSequence c s (fun e => f e [])
    | _ =>
      {| Escape.firstBytes :=
           if existsb (Z.eqb b) (Escape.firstBytes c) then Escape.firstBytes c
           else Escape.firstBytes c ++ [b];
         Escape.sequences :=
           Escape.sequences c ++ [{| Escape.seq := s; Escape.term := t; Escape.callback := f |}] |}
    end
  end.

(** The configurations an [EscapeBuffer] gets: [AddSequence] and
    [AddReportSequence] calls from none registered. *)
Inductive registered : Escape.config -> Prop :=
| reg_empty : registered Escape.empty_config
| reg_add (c : Escape.config) (s : list Z) (f : Escape.ebuf -> Escape.ebuf * bool) :
    registered c -> registered (Escape.AddSequence c s f)
| reg_report (c : Escape.config) (s t : list Z) (f : Escape.ebuf -> list Z -> Escape.ebuf * bool) :
    registered c -> registered (AddReportSequence c s t f).

End Runout.

(** * Properties *)

(** ** The message codec *)
Module MessengerFacts.
Import Go Messenger.

Lemma copy_at_length (dst src : list Z) (off : nat) :
  (off <= length dst)%nat ->
  length (fst (copy_at dst off src)) = length dst /\
  (snd (copy_at dst off src) <= length dst - off)%nat.
Proof.
  intros Hoff. unfold copy_at; simpl.
  rewrite !length_app, !length_firstn, length_skipn. lia.
Qed.

Lemma land_4095_bound (count : Z) :
  0 <= Z.land (count + 4096) 4095 <= 4095.
Proof.
  change 4095 with (Z.ones 12). rewrite Z.land_ones by lia.
  pose proof (Z.mod_pos_bound (count + 4096) (2 ^ 12)) as H.
  change (Z.ones 12) with (2 ^ 12 - 1). lia.
Qed.

Lemma src_read_short (count : Z) (r : reader) :
  short count r -> short count (fst (src_read r)).
Proof.
  unfold short, src_read. intros [H1 H2].
  destruct (Nat.eqb (length (message r) - mt r) 0) eqn:E; cbn -[copy_at]; [lia|].
  destruct (src r) as [|x xs] eqn:Es; cbn -[copy_at]; [lia|].
  set (n := Nat.min (length (message r) - mt r) (S (length xs))).
  destruct (copy_at (message r) (mt r) (firstn n (x :: xs))) as [m' k] eqn:Ec.
  pose proof (copy_at_length (message r) (firstn n (x :: xs)) (mt r) H1) as [L _].
  rewrite Ec in L. cbn -[copy_at] in *. rewrite L. unfold n. lia.
Qed.

Lemma fill_step_short (count : Z) (r : reader) :
  4096 <= count -> short count r -> short count (fill_step count r).
Proof.
  intros Hc Hs. unfold fill_step.
  assert (Hr1 : short count
    (if Z.gtb count (Z.of_nat (length (message r))) then
       let nm := repeat 0 (Z.to_nat (Z.land (count + 4096) 4095)) in
       let '(nm', k) := copy_at nm 0 (slice (message r) 0 (mt r - mh r)) in
       set_heads r nm' 0 k
     else if Z.gtb (Z.of_nat (mh r) + count) (Z.of_nat (length (message r))) then
       let '(m', k) := copy_at (message r) 0 (slice (message r) (mh r) (mt r)) in
       set_heads r m' 0 k
     else r)).
  { destruct Hs as [H1 H2].
    destruct (Z.gtb count _) eqn:G1.
    - cbv zeta.
      set (nm := repeat 0 (Z.to_nat (Z.land (count + 4096) 4095))).
      destruct (copy_at nm 0 _) as [nm' k] eqn:Ec.
      pose proof (copy_at_length nm (slice (message r) 0 (mt r - mh r)) 0 (Nat.le_0_l _)) as [L K].
      rewrite Ec in L, K. simpl in *.
      unfold short, set_heads; simpl. rewrite L.
      unfold nm in *. rewrite repeat_length in *.
      pose proof (land_4095_bound count). split; [lia|].
      rewrite Z2Nat.id by lia. lia.
    - destruct (Z.gtb (Z.of_nat (mh r) + count) _) eqn:G2.
      + destruct (copy_at (message r) 0 _) as [m' k] eqn:Ec.
        pose proof (copy_at_length (message r) (slice (message r) (mh r) (mt r)) 0 (Nat.le_0_l _)) as [L K].
        rewrite Ec in L, K. simpl in *.
        unfold short, set_heads; simpl. rewrite L. lia.
      + split; assumption. }
  pose proof (src_read_short count _ Hr1) as Hr2.
  destruct (src_read _) as [r2 n] eqn:E2. simpl in Hr2.
  destruct (andb _ _); [|exact Hr2].
  unfold short in *; simpl; exact Hr2.
Qed.

Lemma fill_loop_short (fuel : nat) (count : Z) (r : reader) :
  4096 <= count -> short count r -> short count (fill_loop fuel count r).
Proof.
  revert r. induction fuel as [|f IH]; intros r Hc Hs; simpl; [exact Hs|].
  destruct (loop_cond count r); [|exact Hs].
  apply IH; [exact Hc|]. now apply fill_step_short.
Qed.

(** [fill(count)] with [count] above the buffer's capacity fails
    whatever the connection delivers. *)
Lemma fill_short_fails (count : Z) (r : reader) :
  4096 <= count -> short count r -> snd (fill count r) = false.
Proof.
  intros Hc Hs. unfold fill.
  destruct (Z.eqb count 0) eqn:E0; [apply Z.eqb_eq in E0; lia|].
  destruct (andb _ _); [reflexivity|].
  cbv zeta.
  set (r0 := if Nat.leb (mt r) (mh r) then set_heads r (message r) 0 0 else r).
  assert (Hs0 : short count r0).
  { unfold r0. destruct (Nat.leb _ _); [|exact Hs].
    destruct Hs. unfold short, set_heads; simpl. lia. }
  pose proof (fill_loop_short (fill_fuel r0) count r0 Hc Hs0) as [H1 H2].
  cbn [snd]. rewrite Z.geb_leb. apply Z.leb_gt. lia.
Qed.

End MessengerFacts.

(** ** The escape buffer *)
Module EscapeFacts.
Import Escape ShellEsc.

Lemma last_app_nonempty (a b : list Z) (d : Z) : b <> [] -> last (a ++ b) d = last b d.
Proof.
  intros Hb. induction a as [|x a IH]; [reflexivity|].
  simpl. rewrite IH. destruct a; simpl; [|reflexivity].
  destruct b; [congruence|reflexivity].
Qed.

Lemma last_skipn (n : nat) (l : list Z) (d : Z) : (n < length l)%nat -> last (skipn n l) d = last l d.
Proof.
  revert l. induction n as [|n IH]; intros l H; [reflexivity|].
  destruct l as [|x l]; simpl in *; [lia|].
  rewrite IH by lia. destruct l; simpl in *; [lia|reflexivity].
Qed.

(** When [appendto] returns, the slice keeps its capacity, its length is
    within it, and its last byte is the last byte of [new]. *)
Lemma appendto_sound (old s : slice) (new : list Z) (d : Z) :
  appendto old new = Some s ->
  sc s = sc old /\
  (length (sd old) <= sc old -> length (sd s) <= sc old)%nat /\
  (0 < sc old -> new <> [] -> last (sd s) d = last new d)%nat.
Proof.
  unfold appendto. intros H.
  destruct (Nat.eqb (length new) 0) eqn:E0.
  { inversion H; subst. apply Nat.eqb_eq, length_zero_iff_nil in E0. subst.
    repeat split; try lia. intros _ C; congruence. }
  apply Nat.eqb_neq in E0.
  destruct (Nat.leb (sc old) (length new)) eqn:E1.
  { inversion H; subst; simpl. apply Nat.leb_le in E1.
    rewrite length_skipn. repeat split; try lia.
    intros Hc _. apply last_skipn. lia. }
  apply Nat.leb_gt in E1.
  destruct (Nat.ltb (length new + length (sd old)) (sc old)) eqn:E2.
  { inversion H; subst; simpl. apply Nat.ltb_lt in E2.
    rewrite length_app. repeat split; try lia.
    intros _ Hn. apply last_app_nonempty; exact Hn. }
  apply Nat.ltb_ge in E2.
  set (e := (if Nat.ltb (sc old / 8) 1024
             then (if Nat.eqb (sc old / 8) 0 then 1 else sc old / 8)%nat
             else 1024%nat)) in *.
  clearbody e.
  destruct (Nat.ltb (length (sd old)) _) eqn:E3; [discriminate|].
  apply Nat.ltb_ge in E3.
  inversion H; subst; cbn [sd sc].
  rewrite length_app, length_skipn. repeat split; try lia.
  intros _ Hn. apply last_app_nonempty; exact Hn.
Qed.

End EscapeFacts.

(** ** Clients and the shell *)
Module ShellFacts.
Import Shell.

Lemma send_to_store (s : shell) (c : nat) (k : Z) (b : list Z) :
  store (fst (send_to s c k b)) = upd (store s) c (fst (Send (store s c) k b)) /\
  clients (fst (send_to s c k b)) = clients s /\
  snd (send_to s c k b) = true /\
  eb (fst (send_to s c k b)) = eb s /\
  pids (fst (send_to s c k b)) = pids s.
Proof.
  unfold send_to, Send. destruct (andb _ _); simpl; repeat split; reflexivity.
Qed.

Lemma Send_primary (c : client) (k : Z) (b : list Z) : primary (fst (Send c k b)) = primary c.
Proof. unfold Send. destruct (andb _ _); reflexivity. Qed.

Lemma Send_buffers (c : client) (k : Z) (b : list Z) :
  buffers (fst (Send c k b)) =
  if andb (Z.eqb k 0) (Nat.eqb (length b) 0) then buffers c else buffers c ++ [(k, b)].
Proof. unfold Send. destruct (andb _ _); reflexivity. Qed.

Lemma upd_same (st : nat -> client) (c : nat) (v : client) : upd st c v c = v.
Proof. unfold upd. now rewrite Nat.eqb_refl. Qed.

Lemma upd_other (st : nat -> client) (c x : nat) (v : client) : x <> c -> upd st c v x = st x.
Proof. intros H. unfold upd. apply Nat.eqb_neq in H. now rewrite H. Qed.

Lemma send_to_primary (s : shell) (c : nat) (k : Z) (b : list Z) (x : nat) :
  primary (store (fst (send_to s c k b)) x) = primary (store s x).
Proof.
  destruct (send_to_store s c k b) as (St & _). rewrite St.
  unfold upd. destruct (Nat.eqb x c) eqn:E; [|reflexivity].
  apply Nat.eqb_eq in E; subst. apply Send_primary.
Qed.

Lemma preempt_others_primary (cs : list nat) (c : nat) :
  forall (st : nat -> client) (x : nat),
  primary (preempt_others st cs c x) =
    if andb (existsb (Nat.eqb x) cs) (negb (Nat.eqb x c)) then false else primary (st x).
Proof.
  induction cs as [|oc cs IH]; intros st x; [reflexivity|].
  cbn [preempt_others]. rewrite IH. cbn [existsb].
  destruct (Nat.eqb x c) eqn:Exc; cbn [negb]; rewrite ?andb_false_r, ?andb_true_r.
  - apply Nat.eqb_eq in Exc; subst x.
    destruct (Nat.eqb oc c) eqn:Eoc; [reflexivity|].
    destruct (primary (st oc)); [|reflexivity].
    rewrite upd_other; [reflexivity|].
    intros H; subst; rewrite Nat.eqb_refl in Eoc; discriminate.
  - destruct (existsb (Nat.eqb x) cs); rewrite ?orb_true_r; [reflexivity|].
    rewrite orb_false_r.
    destruct (Nat.eqb x oc) eqn:Exo.
    + apply Nat.eqb_eq in Exo; subst x. rewrite Exc.
      destruct (primary (st oc)) eqn:P; [|congruence].
      rewrite upd_same, Send_primary. reflexivity.
    + destruct (Nat.eqb oc c); [reflexivity|].
      destruct (primary (st oc)); [|reflexivity].
      rewrite upd_other; [reflexivity|].
      intros H; subst; rewrite Nat.eqb_refl in Exo; discriminate.
Qed.

Lemma Take_clients (s : shell) (c : nat) : clients (Take s c) = clients s.
Proof. unfold Take. destruct (primary (store s c)); reflexivity. Qed.

Lemma Take_primary_new (s : shell) (c x : nat) :
  primary (store s c) = false ->
  primary (store (Take s c) x) =
    if Nat.eqb x c then true
    else if existsb (Nat.eqb x) (clients s) then false else primary (store s x).
Proof.
  intros Hc. unfold Take. rewrite Hc. cbn [store set_store].
  destruct (Nat.eqb x c) eqn:Exc.
  - apply Nat.eqb_eq in Exc; subst x. rewrite upd_same, Send_primary. reflexivity.
  - rewrite upd_other by (intros H; subst; rewrite Nat.eqb_refl in Exc; discriminate).
    rewrite preempt_others_primary, Exc. cbn [negb]. rewrite andb_true_r. reflexivity.
Qed.

Lemma existsb_eqb_In (x : nat) (l : list nat) : existsb (Nat.eqb x) l = true <-> In x l.
Proof.
  rewrite existsb_exists. split.
  - intros (y & Hy & E). apply Nat.eqb_eq in E. now subst.
  - intros H. exists x. split; [exact H|apply Nat.eqb_refl].
Qed.

Lemma Attach_facts (s : shell) (c : nat) :
  (forall x, primary (store (fst (Attach s c)) x) = primary (store s x)) /\
  (forall x, In x (clients (fst (Attach s c))) -> In x (clients s) \/ x = c).
Proof.
  unfold Attach.
  destruct (send_to s c startMessage []) as [s1 o1] eqn:E1.
  pose proof (send_to_primary s c startMessage [] ) as P1.
  destruct (send_to_store s c startMessage []) as (_ & C1 & _ & B1 & _).
  rewrite E1 in P1, C1, B1. cbn [fst] in P1, C1, B1.
  destruct (send_to s1 c dataMessage _) as [s2 o2] eqn:E2.
  pose proof (send_to_primary s1 c dataMessage (ShellEsc.cls ++ Escape.sd (Escape.normal (eb s1)))) as P2.
  destruct (send_to_store s1 c dataMessage (ShellEsc.cls ++ Escape.sd (Escape.normal (eb s1)))) as (_ & C2 & K2 & B2 & _).
  rewrite E2 in P2, C2, K2, B2. cbn [fst snd] in P2, C2, K2, B2. subst o2. cbn [negb].
  destruct (Escape.inalt (eb s2)).
  - destruct (send_to s2 c dataMessage ShellEsc.scasb) as [s3 o3] eqn:E3.
    pose proof (send_to_primary s2 c dataMessage ShellEsc.scasb) as P3.
    destruct (send_to_store s2 c dataMessage ShellEsc.scasb) as (_ & C3 & _ & B3 & _).
    rewrite E3 in P3, C3, B3. cbn [fst] in P3, C3, B3.
    destruct (send_to s3 c dataMessage _) as [s4 o4] eqn:E4.
    pose proof (send_to_primary s3 c dataMessage (Escape.sd (Escape.alt (eb s3)))) as P4.
    destruct (send_to_store s3 c dataMessage (Escape.sd (Escape.alt (eb s3)))) as (_ & C4 & K4 & _ & _).
    rewrite E4 in P4, C4, K4. cbn [fst snd] in P4, C4, K4. subst o4. cbn [negb fst].
    split.
    + intros x. cbn [store set_clients]. rewrite P4, P3, P2, P1. reflexivity.
    + intros x. cbn [clients set_clients]. unfold map_add.
      rewrite C4, C3, C2, C1.
      destruct (existsb _ _); [now left|].
      rewrite in_app_iff. intros [H|[H|[]]]; [now left|now right].
  - cbn [fst]. split.
    + intros x. cbn [store set_clients]. rewrite P2, P1. reflexivity.
    + intros x. cbn [clients set_clients]. unfold map_add.
      rewrite C2, C1.
      destruct (existsb _ _); [now left|].
      rewrite in_app_iff. intros [H|[H|[]]]; [now left|now right].
Qed.

Lemma detach_In (s : shell) (c x : nat) : In x (clients (detach s c)) -> In x (clients s).
Proof. unfold detach; cbn. rewrite filter_In. tauto. Qed.

Lemma Count_fold_facts (alive : Z -> bool) (l : list (Z * nat)) :
  forall s, store (fold_left (fun s '(pid, c) =>
              if alive pid then s
              else detach (set_pids s (filter (fun '(p, _) => negb (Z.eqb p pid)) (pids s))) c) l s)
            = store s /\
       (forall x, In x (clients (fold_left (fun s '(pid, c) =>
              if alive pid then s
              else detach (set_pids s (filter (fun '(p, _) => negb (Z.eqb p pid)) (pids s))) c) l s))
                  -> In x (clients s)).
Proof.
  induction l as [|[p c] l IH]; intros s; cbn [fold_left]; [split; auto|].
  destruct (IH (if alive p then s
                else detach (set_pids s (filter (fun '(p0, _) => negb (Z.eqb p0 p)) (pids s))) c))
    as [H1 H2].
  split.
  - rewrite H1. destruct (alive p); reflexivity.
  - intros x Hx. apply H2 in Hx. destruct (alive p); [exact Hx|].
    apply detach_In in Hx. exact Hx.
Qed.

Lemma one_primary_reachable (s : shell) : reachable s -> one_primary s.
Proof.
  induction 1 as [st ps e|s c Hr IH Hc|s c Hr IH|s c Hr IH|s c k bs Hr IH
                 |s c p Hr IH|alive s Hr IH|s e Hr IH].
  - intros a b Ha. destruct Ha.
  - destruct (Attach_facts s c) as [P C].
    intros a b Ha Hb Pa Pb. rewrite P in Pa, Pb.
    apply C in Ha. apply C in Hb.
    destruct Ha as [Ha|Ha]; destruct Hb as [Hb|Hb]; subst; try congruence.
    apply IH; assumption.
  - intros a b Ha Hb. apply detach_In in Ha. apply detach_In in Hb. apply IH; assumption.
  - intros a b Ha Hb Pa Pb. rewrite Take_clients in Ha, Hb.
    destruct (primary (store s c)) eqn:Pc.
    + unfold Take in Pa, Pb. rewrite Pc in Pa, Pb. apply IH; assumption.
    + rewrite Take_primary_new in Pa, Pb by exact Pc.
      destruct (Nat.eqb a c) eqn:Ea; destruct (Nat.eqb b c) eqn:Eb.
      * apply Nat.eqb_eq in Ea. apply Nat.eqb_eq in Eb. congruence.
      * apply existsb_eqb_In in Hb. rewrite Hb in Pb. discriminate.
      * apply existsb_eqb_In in Ha. rewrite Ha in Pa. discriminate.
      * apply existsb_eqb_In in Ha. rewrite Ha in Pa. discriminate.
  - intros a b Ha Hb Pa Pb.
    destruct (send_to_store s c k bs) as (_ & Cl & _).
    rewrite send_to_primary in Pa, Pb. rewrite Cl in Ha, Hb. apply IH; assumption.
  - intros a b Ha Hb Pa Pb. apply IH; assumption.
  - unfold Count. cbv zeta. cbn [fst].
    destruct (Count_fold_facts alive (pids s) s) as [St Cl].
    intros a b Ha Hb Pa Pb. rewrite St in Pa, Pb.
    apply Cl in Ha. apply Cl in Hb. apply IH; assumption.
  - intros a b Ha Hb Pa Pb. apply IH; assumption.
Qed.

Lemma Send_enqueues (c : client) (k : Z) (b : list Z) :
  (k <> 0 \/ b <> []) -> buffers (fst (Send c k b)) = buffers c ++ [(k, b)].
Proof.
  intros H. rewrite Send_buffers.
  destruct (Z.eqb k 0) eqn:Ek; [|reflexivity].
  destruct b as [|x b]; [|reflexivity].
  apply Z.eqb_eq in Ek. destruct H; congruence.
Qed.

Lemma Attach_result (s : shell) (c : nat) :
  buffers (store (fst (Attach s c)) c) =
    buffers (store s c) ++
    [(startMessage, []); (dataMessage, ShellEsc.cls ++ Escape.sd (Escape.normal (eb s)))] ++
    (if Escape.inalt (eb s) then
       (dataMessage, ShellEsc.scasb) ::
       (if Nat.eqb (length (Escape.sd (Escape.alt (eb s)))) 0 then []
        else [(dataMessage, Escape.sd (Escape.alt (eb s)))])
     else []) /\
  clients (fst (Attach s c)) = map_add (clients s) c /\
  snd (Attach s c) = Z.of_nat (length (map_add (clients s) c)) - 1.
Proof.
  unfold Attach.
  destruct (send_to s c startMessage []) as [s1 o1] eqn:E1.
  destruct (send_to_store s c startMessage []) as (S1 & C1 & _ & B1 & _).
  rewrite E1 in S1, C1, B1. cbn [fst] in S1, C1, B1.
  destruct (send_to s1 c dataMessage _) as [s2 o2] eqn:E2.
  destruct (send_to_store s1 c dataMessage (ShellEsc.cls ++ Escape.sd (Escape.normal (eb s1))))
    as (S2 & C2 & K2 & B2 & _).
  rewrite E2 in S2, C2, K2, B2. cbn [fst snd] in S2, C2, K2, B2. subst o2. cbn [negb].
  assert (Hb2 : buffers (store s2 c) =
    buffers (store s c) ++
    [(startMessage, []); (dataMessage, ShellEsc.cls ++ Escape.sd (Escape.normal (eb s)))]).
  { rewrite S2, upd_same, Send_enqueues, S1, upd_same, Send_enqueues, B1.
    - rewrite <- app_assoc. reflexivity.
    - left; discriminate.
    - right. rewrite B1. unfold ShellEsc.cls, ShellEsc.nsbrc. simpl. discriminate. }
  rewrite B2, B1.
  destruct (Escape.inalt (eb s)) eqn:Alt.
  - destruct (send_to s2 c dataMessage ShellEsc.scasb) as [s3 o3] eqn:E3.
    destruct (send_to_store s2 c dataMessage ShellEsc.scasb) as (S3 & C3 & _ & B3 & _).
    rewrite E3 in S3, C3, B3. cbn [fst] in S3, C3, B3.
    destruct (send_to s3 c dataMessage _) as [s4 o4] eqn:E4.
    destruct (send_to_store s3 c dataMessage (Escape.sd (Escape.alt (eb s3))))
      as (S4 & C4 & K4 & _ & _).
    rewrite E4 in S4, C4, K4. cbn [fst snd] in S4, C4, K4. subst o4. cbn [negb fst].
    cbn [store clients set_clients]. rewrite C4, C3, C2, C1.
    split; [|split; reflexivity].
    rewrite S4, upd_same, Send_buffers, B3, B2, B1, S3, upd_same, Send_enqueues
      by (right; intro Hn; vm_compute in Hn; discriminate Hn).
    rewrite Hb2. cbn [Z.eqb dataMessage andb].
    destruct (Nat.eqb (length (Escape.sd (Escape.alt (eb s)))) 0);
      rewrite <- !app_assoc; reflexivity.
  - cbn [fst store clients set_clients]. rewrite C2, C1, Hb2, app_nil_r.
    split; [reflexivity|split; reflexivity].
Qed.

Lemma filter_filter_comm {A : Type} (f g : A -> bool) (l : list A) :
  filter f (filter g l) = filter (fun x => andb (g x) (f x)) l.
Proof.
  induction l as [|x l IH]; [reflexivity|]. simpl.
  destruct (g x); simpl; [destruct (f x); simpl|]; rewrite ?IH; reflexivity.
Qed.

Lemma Count_fold_exact (alive : Z -> bool) (l : list (Z * nat)) :
  forall s,
  let s' := fold_left (fun s '(pid, c) =>
              if alive pid then s
              else detach (set_pids s (filter (fun '(p, _) => negb (Z.eqb p pid)) (pids s))) c) l s in
  pids s' = filter (fun '(p', _) =>
              negb (existsb (fun '(p, _) => andb (negb (alive p)) (Z.eqb p p')) l)) (pids s) /\
  clients s' = filter (fun x =>
              negb (existsb (fun '(p, c) => andb (negb (alive p)) (Nat.eqb c x)) l)) (clients s).
Proof.
  induction l as [|[p c] l IH]; intros s; cbn [fold_left].
  - split; symmetry; apply forallb_filter_id; apply forallb_forall;
      intros [] _ || intros x _; reflexivity.
  - destruct (IH (if alive p then s
                else detach (set_pids s (filter (fun '(p0, _) => negb (Z.eqb p0 p)) (pids s))) c))
      as [H1 H2].
    cbv zeta in H1, H2 |- *. rewrite H1, H2.
    destruct (alive p) eqn:Ap; cbn [negb andb existsb orb].
    + split; apply filter_ext; [intros [p' c']|intros x]; rewrite Ap; reflexivity.
    + unfold detach, set_pids, set_clients; cbn [pids clients]. rewrite !filter_filter_comm.
      split; apply filter_ext; [intros [p' c']|intros x].
      * rewrite Ap, (Z.eqb_sym p' p). destruct (Z.eqb p p'); reflexivity.
      * rewrite Ap, (Nat.eqb_sym x c). destruct (Nat.eqb c x); reflexivity.
Qed.

Lemma Count_spec (alive : Z -> bool) (s : shell) :
  pids (fst (Count alive s)) = filter (fun '(p, _) => alive p) (pids s) /\
  snd (Count alive s) = length (filter (fun '(p, _) => alive p) (pids s)) /\
  clients (fst (Count alive s)) =
    filter (fun x => negb (existsb (fun '(p, c) => andb (negb (alive p)) (Nat.eqb c x)) (pids s)))
           (clients s).
Proof.
  unfold Count. cbv zeta. cbn [fst snd].
  destruct (Count_fold_exact alive (pids s) s) as [H1 H2]. cbv zeta in H1, H2.
  assert (Hp : filter (fun '(p', _) =>
              negb (existsb (fun '(p, _) => andb (negb (alive p)) (Z.eqb p p')) (pids s))) (pids s)
               = filter (fun '(p, _) => alive p) (pids s)).
  { apply filter_ext_in. intros [p' c'] Hin.
    destruct (alive p') eqn:Ap.
    - destruct (existsb _ _) eqn:Ex; [|reflexivity].
      apply existsb_exists in Ex. destruct Ex as ([p c] & _ & Hpc).
      apply andb_true_iff in Hpc. destruct Hpc as [Hd He].
      apply Z.eqb_eq in He. subst p. rewrite Ap in Hd. discriminate.
    - cbn [negb]. replace (existsb _ _) with true; [reflexivity|].
      symmetry. apply existsb_exists. exists (p', c'). split; [exact Hin|].
      rewrite Ap, Z.eqb_refl. reflexivity. }
  rewrite H1, H2, Hp. split; [reflexivity|split; reflexivity].
Qed.

End ShellFacts.

(** ** Session names *)
Module SessionFacts.
Import Session.

Ltac ascii_cases a := destruct a as [[] [] [] [] [] [] [] []].

Lemma contains_ascii (a : ascii) :
  contains validBytes (String a EmptyString) = in_name_set a.
Proof. ascii_cases a; reflexivity. Qed.

Lemma contains_wide (a : ascii) (t : string) :
  Nat.ltb (nat_of_ascii a) 128 = false -> contains validBytes (String a t) = false.
Proof. ascii_cases a; intros H; first [discriminate H | reflexivity]. Qed.

Lemma in_name_set_wide (a : ascii) :
  Nat.ltb (nat_of_ascii a) 128 = false -> in_name_set a = false.
Proof. ascii_cases a; intros H; first [discriminate H | reflexivity]. Qed.

Lemma length_list_ascii (s : string) : length (list_ascii_of_string s) = String.length s.
Proof. induction s as [|a s IH]; simpl; congruence. Qed.

(** Checking rune by rune is checking byte by byte: an ASCII rune is
    valid exactly when its byte is in the set, and a wide rune never is,
    nor is its first byte. *)
Lemma runes_aux_valid (fuel : nat) (l : list ascii) :
  (length l <= fuel)%nat ->
  forallb (fun c => contains validBytes (rune_string c)) (runes_aux fuel l) =
  forallb in_name_set l.
Proof.
  revert l; induction fuel as [|f IH]; intros [|a l] Hl;
    cbn [runes_aux length] in *; try reflexivity; try lia.
  destruct (Nat.ltb (nat_of_ascii a) 128) eqn:Ea.
  - cbn [forallb rune_string]. rewrite contains_ascii, IH by lia. reflexivity.
  - destruct (take_cont 3 l) as [cs rest].
    cbn [forallb rune_string string_of_list_ascii].
    rewrite contains_wide, in_name_set_wide by exact Ea. reflexivity.
Qed.

End SessionFacts.

(** * The specification's properties *)
Module Claims.
Import Messenger Shell Session.

Lemma map_add_In (cs : list nat) (c : nat) : In c (map_add cs c).
Proof.
  unfold map_add. destruct (existsb (Nat.eqb c) cs) eqn:E.
  - apply ShellFacts.existsb_eqb_In. exact E.
  - apply in_or_app. right. left. reflexivity.
Qed.

Lemma map_add_length_new (cs : list nat) (c : nat) :
  ~ In c cs -> length (map_add cs c) = S (length cs).
Proof.
  intros H. unfold map_add. destruct (existsb (Nat.eqb c) cs) eqn:E.
  - apply ShellFacts.existsb_eqb_In in E. contradiction.
  - rewrite length_app. simpl. lia.
Qed.

(** The codec does round-trip a stream of short items (the spec's first
    scenario): opaque ["A\x00B"], the message [(2, "123:t")], opaque ["C"]. *)
Example roundtrip_short_items :
  let items := [Data [65; 0; 66]; Msg 2 (ShellEsc.bytes_of_string "123:t"); Data [67]] in
  read_all (wire items) = (opaque_of items, messages_of items, Some EOF).
Proof. vm_compute. reflexivity. Qed.

(** C1 (framing round trip).  The round trip fails for a message longer
    than the reader's initial 32768-byte buffer: for the single item
    [(1, 32769 bytes "a")], the items ask for one callback with that
    payload and no opaque byte, but reading the writer's output back
    yields no callback at all and ends in [io.EOF]. *)
Theorem roundtrip_fails_long_message :
  let items := [Msg 1 (repeat 97 32769)] in
  read_all (wire items) = ([], [], Some EOF) /\
  messages_of items = [(1, repeat 97 32769)] /\ opaque_of items = [].
Proof.
  intros items. split; [vm_compute; reflexivity | split; reflexivity].
Qed.

(** C2 (single primary).  In every reachable state at most one attached
    client is primary; and when a keystroke or a [ttysize] from an
    attached client [c] runs [Take(c)], afterwards [c] is primary and no
    other attached client is. *)
Theorem single_primary (s : shell) :
  reachable s ->
  one_primary s /\
  (forall c, In c (clients s) ->
     primary (store (Take s c) c) = true /\
     forall o, In o (clients (Take s c)) -> o <> c -> primary (store (Take s c) o) = false).
Proof.
  intros Hr. pose proof (ShellFacts.one_primary_reachable s Hr) as Hone.
  split; [exact Hone|]. intros c Hc.
  rewrite ShellFacts.Take_clients.
  destruct (primary (store s c)) eqn:Pc.
  - replace (Take s c) with s by (unfold Take; rewrite Pc; reflexivity).
    split; [exact Pc|].
    intros o Ho Hne. destruct (primary (store s o)) eqn:Po; [|reflexivity].
    exfalso. apply Hne. exact (Hone o c Ho Hc Po Pc).
  - split.
    + rewrite ShellFacts.Take_primary_new by exact Pc. rewrite Nat.eqb_refl. reflexivity.
    + intros o Ho Hne. rewrite ShellFacts.Take_primary_new by exact Pc.
      apply Nat.eqb_neq in Hne. rewrite Hne.
      apply ShellFacts.existsb_eqb_In in Ho. rewrite Ho. reflexivity.
Qed.

Lemma single_primary_witness :
  let s0 := {| clients := []; store := fun _ => NewClient; pids := [];
               eb := Escape.NewEscapeBuffer 64 |} in
  let s := Take (fst (Attach (fst (Attach s0 1) ) 2)) 1 in
  reachable s /\ In 2%nat (clients s) /\ In 1%nat (clients s) /\
  primary (store s 1) = true /\
  one_primary s /\
  primary (store (Take s 2) 2) = true /\
  primary (store (Take s 2) 1) = false.
Proof.
  intros s0 s.
  assert (Hr : reachable s).
  { apply reach_take, reach_attach; [apply reach_attach; [apply reach_init|reflexivity]|].
    vm_compute. reflexivity. }
  assert (H2 : In 2%nat (clients s)) by (vm_compute; right; left; reflexivity).
  assert (H1 : In 1%nat (clients s)) by (vm_compute; left; reflexivity).
  assert (Hp : primary (store s 1) = true) by (vm_compute; reflexivity).
  destruct (single_primary s Hr) as [Hone Hall].
  destruct (Hall 2%nat H2) as [Hc Ho].
  assert (H1' : In 1%nat (clients (Take s 2))) by (vm_compute; left; reflexivity).
  exact (conj Hr (conj H2 (conj H1 (conj Hp (conj Hone (conj Hc (Ho 1%nat H1' ltac:(discriminate)))))))).
Defined.

(** C3 (attach repaint).  After [Attach(c)], the mailbox of [c] has
    gained, in order, the start message, the clear sequence followed by
    [normal] as one data item and, when [inalt] is set, the alt-screen
    enter sequence and [alt] (this last item dropped when [alt] is
    empty); so the data [c] received is exactly [cls ++ normal], then
    [scasb ++ alt] when [inalt] holds; and [c] is attached. *)
Theorem Attach_repaint (s : shell) (c : nat) :
  let s' := fst (Attach s c) in
  let N := Escape.sd (Escape.normal (eb s)) in
  let A := Escape.sd (Escape.alt (eb s)) in
  buffers (store s' c) =
    buffers (store s c) ++ [(startMessage, []); (dataMessage, ShellEsc.cls ++ N)] ++
    (if Escape.inalt (eb s) then
       (dataMessage, ShellEsc.scasb) :: (if Nat.eqb (length A) 0 then [] else [(dataMessage, A)])
     else []) /\
  data_of (skipn (length (buffers (store s c))) (buffers (store s' c))) =
    ShellEsc.cls ++ N ++ (if Escape.inalt (eb s) then ShellEsc.scasb ++ A else []) /\
  In c (clients s').
Proof.
  destruct (ShellFacts.Attach_result s c) as (Hb & Hc & _).
  cbv zeta. rewrite Hb, Hc. split; [reflexivity|split; [|apply map_add_In]].
  rewrite skipn_app, skipn_all, Nat.sub_diag. cbn [skipn app].
  unfold data_of, dataMessage, startMessage.
  destruct (Escape.inalt (eb s)).
  - destruct (Nat.eqb (length (Escape.sd (Escape.alt (eb s)))) 0) eqn:E.
    + apply Nat.eqb_eq, length_zero_iff_nil in E. rewrite E.
      cbn [flat_map Z.eqb Pos.eqb]. rewrite !app_nil_r, <- !app_assoc. reflexivity.
    + cbn [flat_map Z.eqb Pos.eqb]. rewrite !app_nil_r, <- !app_assoc. reflexivity.
  - cbn [flat_map Z.eqb Pos.eqb]. rewrite !app_nil_r. reflexivity.
Qed.

(** C4 (large payloads).  When [fill(count)] is asked for more bytes
    than the buffer holds (at least 4096, so any message above the
    initial 32768 bytes), it never succeeds: it reallocates the buffer
    to [(count+0x1000)&0xfff] bytes, fewer than [count], so [Read]
    returns [io.EOF] without delivering the message. *)
Theorem fill_never_grows_to_count (count : Z) (r : reader) :
  4096 <= count -> short count r -> snd (fill count r) = false.
Proof. apply MessengerFacts.fill_short_fails. Qed.

Lemma fill_never_grows_to_count_witness :
  4096 <= 32769 /\
  short 32769 {| message := repeat 0 32768; mh := 6; mt := 32768; err := None;
                 src := repeat 97 7 |} /\
  snd (fill 32769 {| message := repeat 0 32768; mh := 6; mt := 32768; err := None;
                     src := repeat 97 7 |}) = false.
Proof.
  assert (H1 : 4096 <= 32769) by lia.
  assert (H2 : short 32769 {| message := repeat 0 32768; mh := 6; mt := 32768; err := None;
                              src := repeat 97 7 |}).
  { unfold short. cbn [message mt]. rewrite repeat_length. split; [apply Nat.le_refl|].
    vm_compute. reflexivity. }
  split; [exact H1|split; [exact H2|]].
  exact (fill_never_grows_to_count _ _ H1 H2).
Defined.

(** C5 (live count).  The [askCount] reply is the count kind with the
    decimal of [Shell.Count()]: [Count] removes the pid entries whose pid
    is dead and detaches their clients, and the reply is the number of
    pid entries left, the registered pids that are alive.  Only pids
    registered by a [ttyname] message are counted. *)
Theorem askCount_reply_count (s : shell) (alive : Z -> bool) :
  snd (askCount_reply alive s) =
    (countMessage, ShellEsc.bytes_of_string
                     (itoa (Z.of_nat (length (filter (fun '(p, _) => alive p) (pids s)))))) /\
  pids (fst (askCount_reply alive s)) = filter (fun '(p, _) => alive p) (pids s) /\
  clients (fst (askCount_reply alive s)) =
    filter (fun x => negb (existsb (fun '(p, c') => andb (negb (alive p)) (Nat.eqb c' x)) (pids s)))
           (clients s).
Proof.
  destruct (ShellFacts.Count_spec alive s) as (Hp & Hn & Hc).
  unfold askCount_reply. destruct (Count alive s) as [s' n]. cbn [fst snd] in *.
  rewrite Hn. split; [reflexivity|split; assumption].
Qed.

(** C5: client 1 attaches and registers the live pid 1001, then is
    detached (its connection ends, or another client sends [exclusive]);
    [Detach] leaves [s.pids] alone, so the reply counts 1 while no client
    is attached. *)
Lemma askCount_reply_not_live_count :
  let s0 := {| clients := []; store := fun _ => NewClient; pids := [];
               eb := Escape.NewEscapeBuffer 64 |} in
  let s := detach (AddPid (fst (Attach s0 1)) 1 1001) 1 in
  reachable s /\
  snd (askCount_reply (fun _ => true) s) <>
    (countMessage, ShellEsc.bytes_of_string
                     (itoa (Z.of_nat (live_attached (fun _ => true) s)))).
Proof.
  intros s0 s. split.
  - apply reach_detach, reach_addpid, reach_attach; [apply reach_init|reflexivity].
  - vm_compute. discriminate.
Qed.

(** C6 (split writes).  Writing [ESC[?1049h] and ["foo"] in one
    [Write] leaves ["foo"] in [normal], while the same bytes in two
    writes put it in [alt]: [Write] picks the buffer its bytes go to
    from [inalt] on entry, so bytes after a sequence that switches
    screens land in the screen that was current before it. *)
Theorem split_write_differs :
  option_map Escape.view
    (Escape.Write ShellEsc.shell_config ShellEsc.shell_eb
       (ShellEsc.scasb ++ ShellEsc.bytes_of_string "foo")) =
    Some (ShellEsc.bytes_of_string "foo", [], true) /\
  option_map Escape.view
    (Escape.writes ShellEsc.shell_config ShellEsc.shell_eb
       [ShellEsc.scasb; ShellEsc.bytes_of_string "foo"]) =
    Some ([], ShellEsc.bytes_of_string "foo", true).
Proof. split; vm_compute; reflexivity. Qed.

(** C7 (buffer bound).  Writes can panic instead of dropping old bytes:
    with the default 1 MiB capacity, 1000 bytes and then 1048076 bytes
    (with a capacity of 64, 10 bytes then 60) make [appendto] slice
    [old[extra:]] past the end of [old]. *)
Theorem appendto_panics :
  Escape.writes Escape.empty_config (Escape.NewEscapeBuffer 0)
    [repeat 97 1000; repeat 98 1048076] = None /\
  Escape.writes ShellEsc.shell_config (Escape.NewEscapeBuffer 64)
    [repeat 97 10; repeat 98 60] = None.
Proof. split; vm_compute; reflexivity. Qed.

(** C8 (Listen atomicity).  Once the listener is bound to [a] and the
    session directory exists: if writing [addr] fails, or writing [pid]
    fails, [Listen] returns that error with the directory removed and
    the listener closed; if both succeed it returns the listener, with
    [addr] holding [a] and [pid] the decimal pid. *)
Theorem Listen_atomic (v : env) (w : world) (a : string) :
  bind v = Some a -> dir w <> None ->
  match write_err v "addr", write_err v "pid" with
  | Some e, _ | None, Some e =>
      snd (Listen v w) = Err e /\ dir (fst (Listen v w)) = None /\
      listener (fst (Listen v w)) = Some (a, true)
  | None, None =>
      snd (Listen v w) = Ok a /\ file (fst (Listen v w)) "addr" = Some a /\
      file (fst (Listen v w)) "pid" = Some (itoa (self_pid v)) /\
      listener (fst (Listen v w)) = Some (a, false)
  end.
Proof.
  intros Hb Hd. unfold Listen. rewrite Hb.
  destruct (dir w) as [fs|] eqn:Edir; [|congruence].
  unfold writefile. cbn [dir listener exited].
  destruct (write_err v "addr") as [e|] eqn:Ea; cbn; [repeat split; reflexivity|].
  destruct (write_err v "pid") as [e|] eqn:Ep; cbn; repeat split; reflexivity.
Qed.

Lemma Listen_atomic_witness :
  bind {| bind := Some "127.0.0.1:4000"%string;
          write_err := fun n => if String.eqb n "pid" then Some "disk full"%string else None;
          self_pid := 42 |} = Some "127.0.0.1:4000"%string /\
  dir {| dir := Some []; listener := None; exited := false |} <> None /\
  snd (Listen {| bind := Some "127.0.0.1:4000"%string;
                 write_err := fun n => if String.eqb n "pid" then Some "disk full"%string else None;
                 self_pid := 42 |}
              {| dir := Some []; listener := None; exited := false |}) = Err "disk full".
Proof.
  assert (H1 : bind {| bind := Some "127.0.0.1:4000"%string;
          write_err := fun n => if String.eqb n "pid" then Some "disk full"%string else None;
          self_pid := 42 |} = Some "127.0.0.1:4000"%string) by reflexivity.
  assert (H2 : dir {| dir := Some []; listener := None; exited := false |} <> None)
    by discriminate.
  split; [exact H1|split; [exact H2|]].
  exact (proj1 (Listen_atomic _ _ _ H1 H2)).
Defined.

(** C9 (session names).  [ValidSessionName(name)] holds exactly when
    [name] is not ["log"] and every byte of it is one of
    [0-9A-Za-z_-.+!=:[]<>{}]; the empty name is accepted. *)
Theorem ValidSessionName_iff (name : string) :
  ValidSessionName name = true <->
  name <> "log"%string /\ forallb in_name_set (list_ascii_of_string name) = true.
Proof.
  unfold ValidSessionName, runes.
  rewrite SessionFacts.runes_aux_valid by (rewrite SessionFacts.length_list_ascii; lia).
  destruct (String.eqb_spec name "log").
  - split; [discriminate | intros [H _]; contradiction].
  - split; [intros H; split; assumption | intros [_ H]; exact H].
Qed.

(** C9: the empty name is valid, though it is not a non-empty string. *)
Lemma ValidSessionName_empty :
  ~ (ValidSessionName EmptyString = true <->
     EmptyString <> EmptyString /\ EmptyString <> "log"%string /\
     forallb in_name_set (list_ascii_of_string EmptyString) = true).
Proof.
  intros [H _]. destruct (H eq_refl) as [Hne _]. apply Hne. reflexivity.
Qed.

(** C10 (empty data).  [Client.Send] returns true; it leaves the
    mailbox as it is for a data item with an empty payload and appends
    exactly one item otherwise; so it never makes an empty data item
    appear in the mailbox. *)
Theorem Send_drops_empty_data (c : client) (kind : Z) (buf : list Z) :
  Send c kind buf =
    (if andb (Z.eqb kind dataMessage) (Nat.eqb (length buf) 0) then c
     else {| cname := cname c; buffers := buffers c ++ [(kind, buf)]; primary := primary c |},
     true) /\
  (In (dataMessage, []) (buffers (fst (Send c kind buf))) <-> In (dataMessage, []) (buffers c)).
Proof.
  unfold Send, dataMessage.
  destruct (andb (Z.eqb kind 0) (Nat.eqb (length buf) 0)) eqn:E;
    cbn [fst buffers]; (split; [reflexivity|]); [tauto|].
  rewrite in_app_iff. cbn [In]. split; [|tauto].
  intros [H|[H|[]]]; [exact H|].
  injection H as H1 H2. subst. discriminate E.
Qed.

End Claims.

(** * Further properties of the code *)
Module Extras.
Import ListNotations.
Open Scope Z_scope.

Module WriterProps.
Import Go Messenger Writer.

Lemma index_byte_some (l : list Z) (b : Z) (x : nat) :
  index_byte l b = Some x -> exists q r, l = q ++ b :: r /\ length q = x /\ ~ In b q.
Proof.
  revert x; induction l as [|y l IH]; intros x H; simpl in H; [discriminate|].
  destruct (Z.eqb_spec y b) as [->|Hne].
  - injection H as <-. exists [], l. simpl. auto.
  - destruct (index_byte l b) as [x'|] eqn:E; simpl in H; [|discriminate].
    injection H as <-. destruct (IH x' eq_refl) as (q & r & -> & Hl & Hn).
    exists (y :: q), r. simpl. repeat split; [lia|]. intros [Hy|Hy]; [congruence|tauto].
Qed.

Lemma index_byte_none (l : list Z) (b : Z) : index_byte l b = None -> ~ In b l.
Proof.
  induction l as [|y l IH]; simpl; [auto|].
  destruct (Z.eqb_spec y b); [discriminate|].
  destruct (index_byte l b); simpl; [discriminate|]. intros _ [H|H]; [congruence|tauto].
Qed.

Lemma stuff_app (a b : list Z) : stuff (a ++ b) = stuff a ++ stuff b.
Proof.
  induction a as [|x a IH]; simpl; [reflexivity|].
  destruct (Z.eqb x 0); rewrite IH; reflexivity.
Qed.

Lemma stuff_nonul (l : list Z) : ~ In 0 l -> stuff l = l.
Proof.
  induction l as [|x l IH]; simpl; [reflexivity|]. intros H.
  destruct (Z.eqb_spec x 0); [exfalso; auto|]. rewrite IH; auto.
Qed.

Lemma sink_write_ok (w : sink) (p : list Z) :
  (length p <= budget w)%nat ->
  sink_write w p = ({| wout := wout w ++ p; budget := budget w - length p |}, length p, false).
Proof.
  intros H. unfold sink_write. rewrite Nat.min_l by exact H.
  rewrite firstn_all, Nat.ltb_irrefl. reflexivity.
Qed.

Lemma mw_write_loop_ok (fuel : nat) (p r : list Z) (w : sink) (cnt : Z) :
  (length r < fuel)%nat ->
  (length (p ++ 0%Z :: 0%Z :: stuff r) <= budget w)%nat ->
  mw_write_loop fuel w (p ++ 0 :: r) (length p) cnt =
  ({| wout := wout w ++ p ++ 0 :: 0 :: stuff r;
      budget := budget w - length (p ++ 0 :: 0 :: stuff r) |},
   cnt + Z.of_nat (length p) + 1 + Z.of_nat (length r), false).
Proof.
  revert p r w cnt; induction fuel as [|f IH]; intros p r w cnt Hf Hb; [lia|].
  rewrite length_app in Hb; simpl in Hb.
  cbn [mw_write_loop].
  replace (firstn (length p + 1) (p ++ 0 :: r)) with (p ++ [0])
    by (rewrite firstn_app, firstn_all2 by lia; rewrite Nat.add_comm, Nat.add_sub;
        reflexivity).
  rewrite sink_write_ok by (simpl; rewrite length_app; simpl; lia).
  replace (skipn (length p) (p ++ 0 :: r)) with (0 :: r)
    by (rewrite skipn_app, skipn_all, Nat.sub_diag; reflexivity).
  cbn [skipn].
  destruct (index_byte r 0) as [x|] eqn:E.
  - destruct (index_byte_some _ _ _ E) as (q & r' & Hr & Hq & Hn).
    subst r x.
    change (0 :: q ++ 0 :: r') with ((0 :: q) ++ 0 :: r').
    change (S (length q)) with (length (0 :: q)).
    rewrite stuff_app, stuff_nonul in Hb |- * by exact Hn. cbn [stuff Z.eqb] in Hb |- *.
    rewrite length_app in Hb, Hf. simpl in Hb, Hf.
    rewrite IH by (simpl; rewrite ?length_app; simpl; lia).
    cbn [wout budget]. rewrite !length_app. simpl. rewrite <- !app_assoc. simpl.
    apply (f_equal2 pair); [apply (f_equal2 pair); [f_equal; rewrite ?length_app; simpl; lia|rewrite ?Zpos_P_of_succ_nat; lia]|reflexivity].
  - pose proof (index_byte_none _ _ E) as Hn. rewrite stuff_nonul in Hb |- * by exact Hn.
    rewrite sink_write_ok by (simpl; rewrite length_app; simpl; lia).
    cbn [wout budget]. rewrite !length_app. simpl. rewrite <- !app_assoc. simpl.
    apply (f_equal2 pair); [apply (f_equal2 pair); [f_equal; rewrite ?length_app; simpl; lia|rewrite ?Zpos_P_of_succ_nat; lia]|reflexivity].
Qed.

(** With room for the whole stuffed stream, [Write] hands the sink [buf]
    with every 0 byte doubled, in one or more writes. *)
Lemma mw_Write_all (w : sink) (buf : list Z) :
  (length (stuff buf) <= budget w)%nat ->
  mw_Write w buf =
  ({| wout := wout w ++ stuff buf; budget := budget w - length (stuff buf) |},
   Z.of_nat (length buf), false).
Proof.
  intros Hb. unfold mw_Write.
  destruct (index_byte buf 0) as [x|] eqn:E.
  - destruct (index_byte_some _ _ _ E) as (q & r & -> & <- & Hn).
    rewrite stuff_app, stuff_nonul in Hb |- * by exact Hn. cbn [stuff Z.eqb] in Hb |- *.
    rewrite mw_write_loop_ok by (rewrite ?length_app in Hb |- *; simpl in Hb |- *; lia).
    f_equal. f_equal. rewrite length_app. cbn [length]. lia.
  - pose proof (index_byte_none _ _ E) as Hn. rewrite stuff_nonul in Hb |- * by exact Hn.
    rewrite sink_write_ok by exact Hb. reflexivity.
Qed.


Lemma mw_Send_msg (kind : Z) (buf : list Z) :
  copy_at (header kind (Z.of_nat (length buf)) ++ skipn 6 (repeat 0 oneK)) 6 buf =
  (header kind (Z.of_nat (length buf)) ++ firstn (Nat.min (length buf) 1018) buf ++
     skipn (6 + Nat.min (length buf) 1018) (header kind (Z.of_nat (length buf)) ++ skipn 6 (repeat 0 oneK)),
   Nat.min (length buf) 1018).
Proof.
  unfold copy_at.
  set (h := header kind (Z.of_nat (length buf))).
  assert (Hh : length h = 6%nat) by reflexivity.
  replace (length (h ++ skipn 6 (repeat 0 oneK))) with 1024%nat
    by (rewrite length_app, length_skipn, repeat_length, Hh; reflexivity).
  replace (1024 - 6)%nat with 1018%nat by reflexivity.
  rewrite firstn_app, Hh, Nat.sub_diag, firstn_O, app_nil_r, firstn_all2 by lia.
  reflexivity.
Qed.

(** With room for the whole frame, [Send] hands the sink [send kind buf]. *)
Lemma mw_Send_all (w : sink) (kind : Z) (buf : list Z) :
  (length (send kind buf) <= budget w)%nat ->
  mw_Send w kind buf =
  ({| wout := wout w ++ send kind buf; budget := budget w - length (send kind buf) |},
   Z.of_nat (length buf), false).
Proof.
  intros Hb. unfold mw_Send.
  destruct (Z.eqb_spec kind 0) as [->|Hk].
  - apply mw_Write_all. exact Hb.
  - unfold send in Hb |- *. rewrite (proj2 (Z.eqb_neq _ _) Hk) in Hb |- *.
    rewrite mw_Send_msg. cbn beta iota.
    set (h := header kind (Z.of_nat (length buf))) in *.
    assert (Hh : length h = 6%nat) by reflexivity.
    set (k := Nat.min (length buf) 1018).
    assert (Hk1 : (k <= length buf)%nat) by (unfold k; lia).
    assert (Hk2 : buf <> [] -> (0 < k)%nat)
      by (intros Hne; unfold k; destruct buf; [congruence|simpl; lia]).
    clearbody k.
    rewrite length_app, Hh in Hb.
    replace (firstn (k + 6) (h ++ firstn k buf ++ skipn (6 + k) (h ++ skipn 6 (repeat 0 oneK))))
      with (h ++ firstn k buf).
    2:{ rewrite firstn_app, (firstn_all2 h) by lia. rewrite Hh. f_equal.
        replace (k + 6 - 6)%nat with k by lia.
        rewrite firstn_app, firstn_firstn, length_firstn, Nat.min_id.
        replace (k - Nat.min k (length buf))%nat with O by lia.
        rewrite firstn_O, app_nil_r. reflexivity. }
    rewrite sink_write_ok by (rewrite length_app, length_firstn, Hh; lia).
    rewrite length_app, length_firstn, Hh.
    replace (Nat.min k (length buf)) with k by lia.
    replace (Z.of_nat (6 + k) - 6) with (Z.of_nat k) by lia.
    destruct (Z.leb_spec (Z.of_nat k) 0) as [H0|H0].
    + assert (buf = []) as -> by (destruct buf; [reflexivity|]; specialize (Hk2 ltac:(discriminate)); lia).
      simpl in Hk1. replace k with O by lia. rewrite firstn_nil, !app_nil_r, Hh.
      f_equal; f_equal; f_equal; lia.
    + rewrite Z.ltb_irrefl.
      destruct (Nat.ltb_spec k (length buf)) as [Hl|Hl].
      * rewrite sink_write_ok by (cbn [budget]; rewrite length_skipn; lia).
        cbn [wout budget]. rewrite length_skipn, <- !app_assoc, firstn_skipn.
        apply (f_equal2 pair); [apply (f_equal2 pair); [f_equal; rewrite ?length_app; lia|lia]|reflexivity].
      * assert (k = length buf) as Hkl by lia. rewrite Hkl, firstn_all.
        apply (f_equal2 pair); [apply (f_equal2 pair); [f_equal; rewrite ?length_app; lia|lia]|reflexivity].
Qed.

(** [messageWriter.Write]: when the underlying writer accepts every byte,
    the bytes written are [buf] with each 0 byte doubled, and [Write]
    reports [len(buf)] bytes and no error. *)
Theorem mw_Write_ok (w : sink) (buf : list Z) :
  (length (stuff buf) <= budget w)%nat ->
  mw_Write w buf =
  ({| wout := wout w ++ stuff buf; budget := budget w - length (stuff buf) |},
   Z.of_nat (length buf), false).
Proof. intros H. exact (mw_Write_all w buf H). Qed.

(** [messageWriter.Send]: when the underlying writer accepts every byte,
    kind 0 is written as stuffed data and any other kind as the 6-byte
    header with the length followed by the payload, and [Send] reports
    [len(buf)] bytes and no error. *)
Theorem mw_Send_ok (w : sink) (kind : Z) (buf : list Z) :
  (length (send kind buf) <= budget w)%nat ->
  mw_Send w kind buf =
  ({| wout := wout w ++ send kind buf; budget := budget w - length (send kind buf) |},
   Z.of_nat (length buf), false).
Proof. intros H. exact (mw_Send_all w kind buf H). Qed.

Lemma mw_Send_first (kind : Z) (buf : list Z) (k : nat) :
  (k <= length buf)%nat ->
  firstn (k + 6) (header kind (Z.of_nat (length buf)) ++ firstn k buf ++
                  skipn (6 + k) (header kind (Z.of_nat (length buf)) ++ skipn 6 (repeat 0 oneK)))
  = header kind (Z.of_nat (length buf)) ++ firstn k buf.
Proof.
  intros Hk. set (h := header kind (Z.of_nat (length buf))).
  assert (Hh : length h = 6%nat) by reflexivity.
  rewrite firstn_app, (firstn_all2 h) by lia. rewrite Hh. f_equal.
  replace (k + 6 - 6)%nat with k by lia.
  rewrite firstn_app, firstn_firstn, length_firstn, Nat.min_id.
  replace (k - Nat.min k (length buf))%nat with O by lia.
  rewrite firstn_O, app_nil_r. reflexivity.
Qed.

(** [messageWriter.Send] with a kind other than 0, when the underlying
    writer stops before the end of the first write (the header and at most
    1018 payload bytes): the sink gets a prefix of the frame, and [Send]
    reports the payload bytes that got through (never less than 0, the
    header not counted) and the error. *)
Lemma mw_Send_short (w : sink) (kind : Z) (buf : list Z) :
  kind <> 0 ->
  (budget w < 6 + Nat.min (length buf) 1018)%nat ->
  mw_Send w kind buf =
  ({| wout := wout w ++ firstn (budget w) (send kind buf); budget := 0 |},
   Z.max 0 (Z.of_nat (budget w) - 6), true).
Proof.
  intros Hk Hb. unfold mw_Send, send. rewrite (proj2 (Z.eqb_neq _ _) Hk).
  rewrite mw_Send_msg. cbn beta iota.
  rewrite mw_Send_first by lia.
  set (h := header kind (Z.of_nat (length buf))) in *.
  assert (Hh : length h = 6%nat) by reflexivity.
  set (k := Nat.min (length buf) 1018) in *.
  assert (Hk1 : (k <= length buf)%nat) by (unfold k; lia).
  clearbody k.
  unfold sink_write. rewrite length_app, length_firstn, Hh.
  replace (Nat.min k (length buf)) with k by lia.
  rewrite Nat.min_r by lia.
  replace (Nat.ltb (budget w) (6 + k)) with true by (symmetry; apply Nat.ltb_lt; lia).
  replace (budget w - budget w)%nat with O by lia.
  replace (firstn (budget w) (h ++ firstn k buf)) with (firstn (budget w) (h ++ buf)).
  2:{ rewrite !firstn_app, firstn_firstn, Hh. f_equal. f_equal. lia. }
  destruct (Z.leb_spec (Z.of_nat (budget w) - 6) 0) as [H0|H0].
  - f_equal. f_equal. lia.
  - rewrite (proj2 (Z.ltb_lt _ _)) by lia. f_equal. f_equal. lia.
Qed.

(** [nextBuf] and [runout] of client.go: draining a mailbox whose
    entries are not empty data, into a writer with room for all of it,
    empties the mailbox and puts on the wire exactly [wire] of its entries,
    in order. *)
Lemma drain_wire (fuel : nat) (c : Shell.client) (w : sink) :
  (length (Shell.buffers c) < fuel)%nat ->
  (forall k d, In (k, d) (Shell.buffers c) -> k <> 0 \/ d <> []) ->
  (length (wire (map item_of (Shell.buffers c))) <= budget w)%nat ->
  drain fuel c w =
  (set_buffers c [],
   {| wout := wout w ++ wire (map item_of (Shell.buffers c));
      budget := budget w - length (wire (map item_of (Shell.buffers c))) |}).
Proof.
  destruct c as [nm bs pr]. cbn [Shell.buffers].
  revert fuel w; induction bs as [|[k d] bs IH]; intros fuel w Hf Hne Hb.
  - destruct fuel as [|f]; [simpl in Hf; lia|]. simpl.
    destruct w; simpl. rewrite app_nil_r, Nat.sub_0_r. reflexivity.
  - destruct fuel as [|f]; [simpl in Hf; lia|]. simpl in Hf.
    cbn [drain Shell.buffers].
    assert (Hkd : k <> 0 \/ d <> []) by (apply Hne; left; reflexivity).
    assert (Hne' : forall k d, In (k, d) bs -> k <> 0 \/ d <> [])
      by (intros k' d' Hin; apply Hne; right; exact Hin).
    cbn [map wire flat_map] in Hb |- *. fold (wire (map item_of bs)) in Hb |- *.
    change (item_of (k, d)) with (if Z.eqb k 0 then Data d else Msg k d) in Hb |- *.
    destruct (Z.eqb_spec k 0) as [->|Hk].
    + destruct d as [|b d]; [destruct Hkd as [Hkd|Hkd]; congruence|].
      cbn [andb Nat.eqb length].
      cbn [write_item] in Hb |- *. rewrite length_app in Hb.
      rewrite mw_Write_all by lia. cbn [fst].
      unfold set_buffers at 1. cbn [Shell.cname Shell.primary].
      rewrite IH by (cbn [budget]; try lia; exact Hne').
      cbn [wout budget]. rewrite <- app_assoc, length_app. f_equal. f_equal. lia.
    + cbn [andb]. cbn [write_item] in Hb |- *. rewrite length_app in Hb.
      rewrite mw_Send_all by lia. cbn [fst].
      unfold set_buffers at 1. cbn [Shell.cname Shell.primary].
      rewrite IH by (cbn [budget]; try lia; exact Hne').
      cbn [wout budget]. rewrite <- app_assoc, length_app. f_equal. f_equal. lia.
Qed.

Lemma mw_Write_ok_witness :
  (length (stuff [1; 0; 2]%Z) <= budget {| wout := []; budget := 10 |})%nat /\
  mw_Write {| wout := []; budget := 10 |} [1; 0; 2] =
  ({| wout := wout {| wout := []; budget := 10 |} ++ stuff [1; 0; 2];
      budget := budget {| wout := []; budget := 10 |} - length (stuff [1; 0; 2]) |},
   Z.of_nat (length [1; 0; 2]), false).
Proof.
  assert (H : (length (stuff [1; 0; 2]%Z) <= budget {| wout := []; budget := 10 |})%nat)
    by (vm_compute; lia).
  exact (conj H (mw_Write_ok _ _ H)).
Defined.

Lemma mw_Send_ok_witness :
  (length (send 3%Z [5; 6]%Z) <= budget {| wout := []; budget := 20 |})%nat /\
  mw_Send {| wout := []; budget := 20 |} 3 [5; 6] =
  ({| wout := wout {| wout := []; budget := 20 |} ++ send 3 [5; 6];
      budget := budget {| wout := []; budget := 20 |} - length (send 3 [5; 6]) |},
   Z.of_nat (length [5; 6]), false).
Proof.
  assert (H : (length (send 3%Z [5; 6]%Z) <= budget {| wout := []; budget := 20 |})%nat)
    by (vm_compute; lia).
  exact (conj H (mw_Send_ok _ _ _ H)).
Defined.

Lemma mw_Send_short_witness :
  3 <> 0 /\
  (budget {| wout := []; budget := 7 |} < 6 + Nat.min (length [5; 6]%Z) 1018)%nat /\
  mw_Send {| wout := []; budget := 7 |} 3 [5; 6] =
  ({| wout := wout {| wout := []; budget := 7 |} ++
              firstn (budget {| wout := []; budget := 7 |}) (send 3 [5; 6]);
      budget := 0 |},
   Z.max 0 (Z.of_nat (budget {| wout := []; budget := 7 |}) - 6), true).
Proof.
  assert (H1 : 3 <> 0) by lia.
  assert (H2 : (budget {| wout := []; budget := 7 |} < 6 + Nat.min (length [5; 6]%Z) 1018)%nat)
    by (vm_compute; lia).
  exact (conj H1 (conj H2 (mw_Send_short _ _ _ H1 H2))).
Defined.

Lemma drain_wire_witness :
  let c := {| Shell.cname := ""; Shell.buffers := [(0, [1; 2]); (3, [4])]; Shell.primary := false |} in
  let w := {| wout := []; budget := 100 |} in
  (length (Shell.buffers c) < 3)%nat /\
  (forall k d, In (k, d) (Shell.buffers c) -> k <> 0 \/ d <> []) /\
  (length (wire (map item_of (Shell.buffers c))) <= budget w)%nat /\
  drain 3 c w =
  (set_buffers c [],
   {| wout := wout w ++ wire (map item_of (Shell.buffers c));
      budget := budget w - length (wire (map item_of (Shell.buffers c))) |}).
Proof.
  intros c w.
  assert (H1 : (length (Shell.buffers c) < 3)%nat) by (vm_compute; lia).
  assert (H2 : forall k d, In (k, d) (Shell.buffers c) -> k <> 0 \/ d <> []).
  { intros k d [H|[H|[]]]; injection H as <- <-; [right|left]; discriminate. }
  assert (H3 : (length (wire (map item_of (Shell.buffers c))) <= budget w)%nat)
    by (vm_compute; lia).
  exact (conj H1 (conj H2 (conj H3 (drain_wire 3 c w H1 H2 H3)))).
Defined.

End WriterProps.

Module WireProps.
Import Go Messenger Util WriterProps.

Lemma byte_join (n k : Z) :
  0 <= k ->
  Z.lor (Z.shiftl (Z.shiftr n k mod 256) k) (n mod 2 ^ k) = n mod 2 ^ (k + 8).
Proof.
  intros Hk. change 256 with (2 ^ 8).
  apply Z.bits_inj'. intros i Hi.
  rewrite Z.lor_spec.
  destruct (Z.lt_ge_cases i k) as [Hik|Hik].
  - rewrite Z.shiftl_spec_low by lia.
    rewrite !Z.mod_pow2_bits_low by lia. reflexivity.
  - rewrite Z.shiftl_spec by lia.
    rewrite (Z.mod_pow2_bits_high n k i) by lia. rewrite orb_false_r.
    destruct (Z.lt_ge_cases (i - k) 8).
    + rewrite !Z.mod_pow2_bits_low by lia. rewrite Z.shiftr_spec by lia.
      f_equal. lia.
    + rewrite !Z.mod_pow2_bits_high by lia. reflexivity.
Qed.

(** The reader's decoding of the 4 length bytes of the header [Send]
    writes gives back the length modulo 2^32; the header starts with 0 and
    the kind byte. *)
Lemma header_count (kind n : Z) :
  let h := header kind n in
  Z.lor (Z.shiftl (nth_byte h 2) 24)
    (Z.lor (Z.shiftl (nth_byte h 3) 16)
       (Z.lor (Z.shiftl (nth_byte h 4) 8) (nth_byte h 5))) = n mod 2 ^ 32
  /\ nth_byte h 0 = 0 /\ nth_byte h 1 = kind mod 256.
Proof.
  cbn zeta. unfold header, nth_byte. cbn [nth].
  split; [|split; reflexivity].
  change (n mod 256) with (n mod 2 ^ 8).
  rewrite (byte_join n 8) by lia. change (8 + 8) with 16.
  rewrite (byte_join n 16) by lia. change (16 + 8) with 24.
  rewrite (byte_join n 24) by lia. reflexivity.
Qed.

Lemma decodeSize_encodeSize (rows cols : Z) :
  decodeSize (encodeSize rows cols) = Some (rows mod 2 ^ 16, cols mod 2 ^ 16).
Proof.
  unfold decodeSize, encodeSize, nth_byte. cbn [length Nat.ltb Nat.leb nth].
  change (rows mod 256) with (rows mod 2 ^ 8).
  change (cols mod 256) with (cols mod 2 ^ 8).
  rewrite (byte_join rows 8), (byte_join cols 8) by lia. reflexivity.
Qed.


Lemma index_byte_first (q r : list Z) (b : Z) :
  ~ In b q -> index_byte (q ++ b :: r) b = Some (length q).
Proof.
  induction q as [|y q IH]; intros Hn; simpl; [rewrite Z.eqb_refl; reflexivity|].
  destruct (Z.eqb_spec y b) as [->|Hne]; [exfalso; apply Hn; left; reflexivity|].
  rewrite IH by (intros H; apply Hn; right; exact H). reflexivity.
Qed.

(** The [ttysizeMessage] case of [attach]: a payload is rejected exactly
    when its length is not 4, and the payload [encodeSize(rows, cols)]
    decodes to [rows] and [cols] modulo 2^16. *)
Lemma ttysize_roundtrip :
  (forall msg, Util.ttysize_payload msg = None <-> length msg <> 4%nat) /\
  (forall rows cols,
     Util.ttysize_payload (encodeSize rows cols) = Some (rows mod 2 ^ 16, cols mod 2 ^ 16)).
Proof.
  split.
  - intros msg. unfold ttysize_payload, decodeSize.
    destruct (Nat.eqb_spec (length msg) 4) as [H|H]; cbn [negb].
    + rewrite H. cbn. split; [discriminate|intros C; exfalso; exact (C eq_refl)].
    + split; [intros _; exact H|reflexivity].
  - intros rows cols. unfold ttysize_payload. cbn [encodeSize length Nat.eqb negb].
    apply decodeSize_encodeSize.
Qed.

(** The [forwardMessage] case of [attach]: a payload is accepted exactly
    when it is [name + "\x00" + socket] with a non-empty [name] free of 0
    bytes and a non-empty [socket], and then yields that pair. *)
Lemma parse_forward_iff (msg name value : list Z) :
  parse_forward msg = Some (name, value) <->
  msg = forward_payload name value /\ name <> [] /\ ~ In 0 name /\ value <> [].
Proof.
  unfold parse_forward, forward_payload. split.
  - destruct (index_byte msg 0) as [[|x]|] eqn:E; try discriminate.
    destruct (index_byte_some _ _ _ E) as (q & r & -> & Hq & Hn).
    rewrite <- Hq.
    rewrite firstn_app, firstn_all, Nat.sub_diag, firstn_O, app_nil_r.
    replace (S (length q)) with (length q + 1)%nat by lia.
    rewrite skipn_app, skipn_all2 by lia. replace (length q + 1 - length q)%nat with 1%nat by lia.
    cbn [skipn app].
    destruct (Nat.eqb_spec (length q) 0) as [H0|H0]; [lia|].
    destruct (Nat.eqb_spec (length r) 0) as [H1|H1]; cbn [orb]; [discriminate|].
    intros H. injection H as <- <-. repeat split; auto.
    + intros ->. discriminate Hq.
    + intros ->. apply H1. reflexivity.
  - intros (-> & Hn & H0 & Hv).
    rewrite index_byte_first by exact H0.
    destruct name as [|a name']; [congruence|]. cbn [length].
    change (S (length name')) with (length (a :: name')).
    rewrite firstn_app, firstn_all, Nat.sub_diag, firstn_O, app_nil_r.
    replace (S (length (a :: name'))) with (length (a :: name') + 1)%nat by lia.
    rewrite skipn_app, skipn_all2 by lia. replace (length (a :: name') + 1 - length (a :: name'))%nat with 1%nat by lia.
    cbn [skipn app].
    destruct value as [|v value']; [congruence|]. reflexivity.
Qed.

End WireProps.

Module StrconvProps.
Import Strconv.

Lemma list_ascii_of_string_app (s t : string) :
  list_ascii_of_string (s ++ t) = list_ascii_of_string s ++ list_ascii_of_string t.
Proof. induction s as [|a s IH]; simpl; [reflexivity|]. rewrite IH. reflexivity. Qed.

Lemma digits_val_app (l1 l2 : list ascii) (a : Z) :
  digits_val (l1 ++ l2) a =
  match digits_val l1 a with Some v => digits_val l2 v | None => None end.
Proof.
  revert a; induction l1 as [|c l1 IH]; intros a; simpl; [reflexivity|].
  destruct (is_digit c); [apply IH|reflexivity].
Qed.

Lemma digit_char (m : nat) :
  (m < 10)%nat ->
  is_digit (ascii_of_nat (48 + m)) = true /\ (nat_of_ascii (ascii_of_nat (48 + m)) - 48)%nat = m.
Proof.
  intros Hm. unfold is_digit. rewrite nat_ascii_embedding by lia.
  split; [apply andb_true_intro; split; apply Nat.leb_le; lia|lia].
Qed.

Lemma digits_S (f : nat) (n : Z) (acc : string) :
  Shell.digits (S f) n acc =
  if Z.ltb n 10 then String (ascii_of_nat (48 + Z.to_nat (n mod 10))) acc
  else Shell.digits f (n / 10) (String (ascii_of_nat (48 + Z.to_nat (n mod 10))) acc).
Proof. reflexivity. Qed.

Lemma digits_shape (f : nat) (n : Z) (acc : string) :
  0 <= n < 10 ^ Z.of_nat (S f) ->
  exists D, list_ascii_of_string (Shell.digits (S f) n acc) = D ++ list_ascii_of_string acc /\
            D <> [] /\ forallb is_digit D = true /\
            forall a, digits_val D a = Some (a * 10 ^ Z.of_nat (length D) + n).
Proof.
  revert n acc; induction f as [|f IH]; intros n acc Hn.
  - change (10 ^ Z.of_nat 1) with 10 in Hn.
    assert (Hm : (Z.to_nat (n mod 10) < 10)%nat) by (rewrite Z.mod_small by lia; lia).
    destruct (digit_char _ Hm) as [Hd Hv].
    rewrite digits_S, (proj2 (Z.ltb_lt n 10)) by lia.
    exists [ascii_of_nat (48 + Z.to_nat (n mod 10))]. cbn [list_ascii_of_string app].
    repeat split; [discriminate|cbn [forallb]; rewrite Hd; reflexivity|].
    intros a. cbn [digits_val]. rewrite Hd, Hv. cbn [length].
    rewrite Z.mod_small by lia. rewrite Z2Nat.id by lia. f_equal; try lia.
  - assert (Hm : (Z.to_nat (n mod 10) < 10)%nat)
      by (pose proof (Z.mod_pos_bound n 10); lia).
    destruct (digit_char _ Hm) as [Hd Hv].
    rewrite digits_S.
    destruct (Z.ltb_spec n 10) as [Hl|Hl].
    + exists [ascii_of_nat (48 + Z.to_nat (n mod 10))]. cbn [list_ascii_of_string app].
      repeat split; [discriminate|cbn [forallb]; rewrite Hd; reflexivity|].
      intros a. cbn [digits_val]. rewrite Hd, Hv. cbn [length].
      rewrite Z.mod_small by lia. rewrite Z2Nat.id by lia. f_equal; try lia.
    + assert (Hq : 0 <= n / 10 < 10 ^ Z.of_nat (S f)).
      { split; [apply Z.div_pos; lia|].
        apply Z.div_lt_upper_bound; [lia|].
        rewrite Nat2Z.inj_succ, Z.pow_succ_r in Hn by lia. lia. }
      destruct (IH (n / 10) (String (ascii_of_nat (48 + Z.to_nat (n mod 10))) acc) Hq)
        as (D & HD & Hne & Hall & Hval).
      exists (D ++ [ascii_of_nat (48 + Z.to_nat (n mod 10))]).
      rewrite HD. cbn [list_ascii_of_string]. rewrite <- app_assoc. cbn [app].
      repeat split.
      * destruct D; discriminate.
      * rewrite forallb_app, Hall. cbn [forallb]. rewrite Hd. reflexivity.
      * intros a. rewrite digits_val_app, Hval. cbn [digits_val]. rewrite Hd, Hv.
        rewrite Z2Nat.id by (pose proof (Z.mod_pos_bound n 10); lia).
        rewrite length_app. cbn [length]. rewrite Nat2Z.inj_add, Z.pow_add_r by lia.
        f_equal. pose proof (Z.div_mod n 10 ltac:(lia)). change (10 ^ Z.of_nat 1) with 10. nia.
Qed.

Lemma itoa_shape (n : Z) :
  - 2 ^ 63 <= n < 2 ^ 63 ->
  exists D, list_ascii_of_string (Shell.itoa n) =
              (if Z.ltb n 0 then ["-"%char] else []) ++ D /\
            D <> [] /\ forallb is_digit D = true /\ digits_val D 0 = Some (Z.abs n).
Proof.
  intros Hn. assert (Hp : 2 ^ 63 < 10 ^ Z.of_nat 64) by reflexivity.
  unfold Shell.itoa. destruct (Z.ltb_spec n 0) as [H|H].
  - destruct (digits_shape 63 (- n) EmptyString ltac:(lia)) as (D & HD & Hne & Hall & Hv).
    exists D. cbn [list_ascii_of_string]. rewrite HD, app_nil_r.
    repeat split; auto. rewrite Hv. f_equal. lia.
  - destruct (digits_shape 63 n EmptyString ltac:(lia)) as (D & HD & Hne & Hall & Hv).
    exists D. rewrite HD, app_nil_r. repeat split; auto. rewrite Hv. f_equal. lia.
Qed.

Lemma digit_not_sign (a : ascii) :
  is_digit a = true -> Ascii.eqb a "-" = false /\ Ascii.eqb a "+" = false.
Proof.
  intros H. split.
  - destruct (Ascii.eqb_spec a "-"); [subst; discriminate H|reflexivity].
  - destruct (Ascii.eqb_spec a "+"); [subst; discriminate H|reflexivity].
Qed.

(** [Atoi] on a list of characters whose sign is read off as in [Atoi]. *)
Lemma Atoi_digits (s : string) (neg : bool) (D : list ascii) (u : Z) :
  list_ascii_of_string s = (if neg then ["-"%char] else []) ++ D ->
  D <> [] -> forallb is_digit D = true -> digits_val D 0 = Some u ->
  Atoi s = (let v := if neg then - u else u in
            if Z.ltb v (- 2 ^ 63) then (- 2 ^ 63, false)
            else if Z.leb (2 ^ 63) v then (2 ^ 63 - 1, false)
            else (v, true)).
Proof.
  intros Hs Hne Hall Hv. unfold Atoi. rewrite Hs.
  destruct D as [|d D']; [congruence|].
  destruct neg.
  - cbn [app]. change (Ascii.eqb "-" "-") with true. cbn iota. rewrite Hv. reflexivity.
  - cbn [app]. cbn [forallb] in Hall. apply andb_prop in Hall as [Hd _].
    destruct (digit_not_sign d Hd) as [H1 H2]. rewrite H1, H2. rewrite Hv. reflexivity.
Qed.

(** [strconv.Atoi] reads back what [strconv.Itoa] writes. *)
Lemma Atoi_of_itoa (n : Z) : - 2 ^ 63 <= n < 2 ^ 63 -> Atoi (Shell.itoa n) = (n, true).
Proof.
  intros Hn. destruct (itoa_shape n Hn) as (D & HD & Hne & Hall & Hv).
  rewrite (Atoi_digits _ _ _ _ HD Hne Hall Hv). cbv zeta.
  replace (if Z.ltb n 0 then - Z.abs n else Z.abs n) with n
    by (destruct (Z.ltb_spec n 0); lia).
  rewrite (proj2 (Z.ltb_ge n _)) by lia. rewrite (proj2 (Z.leb_gt _ n)) by lia.
  reflexivity.
Qed.

Lemma itoa_chars (n : Z) (a : ascii) :
  - 2 ^ 63 <= n < 2 ^ 63 -> In a (list_ascii_of_string (Shell.itoa n)) ->
  a = "-"%char \/ is_digit a = true.
Proof.
  intros Hn Hin. destruct (itoa_shape n Hn) as (D & HD & _ & Hall & _).
  rewrite HD in Hin. apply in_app_or in Hin as [Hin|Hin].
  - destruct (Z.ltb n 0); [destruct Hin as [<-|[]]; left; reflexivity|destruct Hin].
  - right. rewrite forallb_forall in Hall. apply Hall, Hin.
Qed.

Lemma index_colon (s t : string) :
  ~ In ":"%char (list_ascii_of_string s) ->
  String.index 0 ":" (s ++ String ":" t) = Some (String.length s).
Proof.
  induction s as [|a s IH]; intros Hn.
  - cbn [append String.index]. destruct (String.prefix ":" (String ":" t)) eqn:E.
    + reflexivity.
    + exfalso. assert (String.prefix ":" (String ":" t) = true); [|congruence].
      apply prefix_correct. destruct t; reflexivity.
  - cbn [append String.index].
    replace (String.prefix ":" (String a (s ++ String ":" t))) with false.
    + rewrite IH by (intros H; apply Hn; right; exact H). reflexivity.
    + symmetry. destruct (String.prefix ":" (String a (s ++ String ":" t))) eqn:E; [|reflexivity].
      apply prefix_correct in E. cbn in E. injection E as ->. exfalso. apply Hn. left. reflexivity.
Qed.

Lemma substring_app_l (s t : string) : substring 0 (String.length s) (s ++ t) = s.
Proof. induction s as [|a s IH]; [destruct t; reflexivity|]. cbn. rewrite IH. reflexivity. Qed.

Lemma substring_app_r (s t : string) (k m : nat) :
  substring (String.length s + k) m (s ++ t) = substring k m t.
Proof. induction s as [|a s IH]; [reflexivity|]. cbn. apply IH. Qed.

Lemma substring_all (t : string) : substring 0 (String.length t) t = t.
Proof. induction t as [|a t IH]; [reflexivity|]. cbn. rewrite IH. reflexivity. Qed.

Lemma length_append (s t : string) :
  String.length (s ++ t) = (String.length s + String.length t)%nat.
Proof. induction s as [|a s IH]; [reflexivity|]. cbn. rewrite IH. reflexivity. Qed.

Lemma bytes_of_string_inj (m m' : string) :
  ShellEsc.bytes_of_string m = ShellEsc.bytes_of_string m' -> m = m'.
Proof.
  revert m'; induction m as [|a m IH]; intros [|a' m'] H; cbn in H; try discriminate; [reflexivity|].
  injection H as Ha Hm. f_equal; [|apply IH; exact Hm].
  apply Nat2Z.inj in Ha.
  rewrite <- (ascii_nat_embedding a), <- (ascii_nat_embedding a'), Ha. reflexivity.
Qed.

(** [Session.Check] on the reply of the server's [askCount] case: the
    payload it gets back parses, and [s.cnt] becomes the value
    [Shell.Count()] returned. *)
Theorem Check_count_live (alive : Z -> bool) (s : Shell.shell) (m : string) :
  Z.of_nat (length (Shell.pids s)) < 2 ^ 63 ->
  snd (Shell.askCount_reply alive s) = (Shell.countMessage, ShellEsc.bytes_of_string m) ->
  Check_count m = Some (Z.of_nat (snd (Shell.Count alive s))).
Proof.
  intros Hl Hr.
  destruct (ShellFacts.Count_spec alive s) as (_ & Hn & _).
  assert (Hm : m = Shell.itoa (Z.of_nat (snd (Shell.Count alive s)))).
  { unfold Shell.askCount_reply in Hr. destruct (Shell.Count alive s) as [s' n].
    cbn [snd] in Hr |- *. injection Hr as Hr. apply bytes_of_string_inj. symmetry. exact Hr. }
  assert (Hb : (length (filter (fun '(p, _) => alive p) (Shell.pids s)) <= length (Shell.pids s))%nat)
    by apply filter_length_le.
  unfold Check_count. rewrite Hm, Atoi_of_itoa by (rewrite Hn; lia). reflexivity.
Qed.

(** [CheckSession] parses a reply [cnt:pid] into the count and the pid,
    with no error. *)
Lemma CheckSession_parse_reply (cnt pid : Z) :
  - 2 ^ 63 <= cnt < 2 ^ 63 -> - 2 ^ 63 <= pid < 2 ^ 63 ->
  CheckSession_parse (Shell.itoa cnt ++ ":" ++ Shell.itoa pid) = (cnt, pid, true).
Proof.
  intros Hc Hp.
  assert (Hcol : ~ In ":"%char (list_ascii_of_string (Shell.itoa cnt))).
  { intros Hin. destruct (itoa_chars cnt _ Hc Hin) as [H|H]; [discriminate H|discriminate H]. }
  assert (Hne : Shell.itoa cnt <> EmptyString).
  { destruct (itoa_shape cnt Hc) as (D & HD & HneD & _).
    intros He. rewrite He in HD. destruct (Z.ltb cnt 0), D; cbn in HD; congruence. }
  change (":" ++ Shell.itoa pid)%string with (String ":" (Shell.itoa pid)).
  set (msg := (Shell.itoa cnt ++ String ":" (Shell.itoa pid))%string).
  assert (Hlen : (2 <= String.length msg)%nat).
  { unfold msg. rewrite length_append. destruct (Shell.itoa cnt); [congruence|]. cbn. lia. }
  unfold CheckSession_parse.
  destruct msg as [|a [|b r]] eqn:Hm; [cbn in Hlen; lia|cbn in Hlen; lia|].
  cbn beta iota. rewrite <- Hm. unfold msg.
  rewrite index_colon by exact Hcol.
  rewrite substring_app_l.
  rewrite Atoi_of_itoa by exact Hc.
  rewrite length_append. cbn [String.length].
  replace (String.length (Shell.itoa cnt) + S (String.length (Shell.itoa pid)) -
           S (String.length (Shell.itoa cnt)))%nat with (String.length (Shell.itoa pid)) by lia.
  replace (S (String.length (Shell.itoa cnt))) with (String.length (Shell.itoa cnt) + 1)%nat by lia.
  rewrite substring_app_r. cbn [substring]. rewrite substring_all.
  rewrite Atoi_of_itoa by exact Hp. reflexivity.
Qed.

Lemma Check_count_live_witness :
  let s := {| Shell.clients := [1%nat; 2%nat]; Shell.store := fun _ => Shell.NewClient;
              Shell.pids := [(1001, 1%nat); (1002, 2%nat)]; Shell.eb := Escape.NewEscapeBuffer 64 |} in
  let alive := fun p => Z.eqb p 1002 in
  Z.of_nat (length (Shell.pids s)) < 2 ^ 63 /\
  snd (Shell.askCount_reply alive s) = (Shell.countMessage, ShellEsc.bytes_of_string "1") /\
  Check_count "1" = Some (Z.of_nat (snd (Shell.Count alive s))).
Proof.
  intros s alive.
  assert (H1 : Z.of_nat (length (Shell.pids s)) < 2 ^ 63) by (cbn; lia).
  assert (H2 : snd (Shell.askCount_reply alive s) = (Shell.countMessage, ShellEsc.bytes_of_string "1"))
    by (vm_compute; reflexivity).
  exact (conj H1 (conj H2 (Check_count_live alive s "1" H1 H2))).
Defined.

Lemma CheckSession_parse_reply_witness :
  - 2 ^ 63 <= 3 < 2 ^ 63 /\ - 2 ^ 63 <= 77 < 2 ^ 63 /\
  CheckSession_parse (Shell.itoa 3 ++ ":" ++ Shell.itoa 77) = (3, 77, true).
Proof.
  assert (H1 : - 2 ^ 63 <= 3 < 2 ^ 63) by lia.
  assert (H2 : - 2 ^ 63 <= 77 < 2 ^ 63) by lia.
  exact (conj H1 (conj H2 (CheckSession_parse_reply 3 77 H1 H2))).
Defined.

End StrconvProps.

Module SessionProps.
Import StrconvProps.

(** After [Listen] (listener bound, directory present): when both files
    were written, [Pid] reads back the process id and [Addr] the address;
    when either write failed, the directory is gone and [Pid] gives
    [(0, false)] and [Addr] the empty string. *)
Theorem Pid_after_Listen (v : Session.env) (w : Session.world) (a : string) :
  Session.bind v = Some a -> Session.dir w <> None ->
  - 2 ^ 63 <= Session.self_pid v < 2 ^ 63 ->
  match Session.write_err v "addr", Session.write_err v "pid" with
  | None, None =>
      SessionFiles.Pid (fst (Session.Listen v w)) = (Session.self_pid v, true) /\
      SessionFiles.Addr (fst (Session.Listen v w)) = a
  | _, _ =>
      SessionFiles.Pid (fst (Session.Listen v w)) = (0, false) /\
      SessionFiles.Addr (fst (Session.Listen v w)) = EmptyString
  end.
Proof.
  intros Hb Hd Hp. unfold SessionFiles.Pid, SessionFiles.Addr, Session.Listen. rewrite Hb.
  destruct (Session.dir w) as [fs|] eqn:Edir; [|congruence].
  unfold Session.writefile. cbn [Session.dir Session.listener Session.exited].
  destruct (Session.write_err v "addr") as [e|] eqn:Ea; cbn; [split; reflexivity|].
  destruct (Session.write_err v "pid") as [e|] eqn:Ep; cbn; [split; reflexivity|].
  rewrite Atoi_of_itoa by exact Hp. split; reflexivity.
Qed.






Lemma Pid_after_Listen_witness :
  let v := {| Session.bind := Some "127.0.0.1:5000"%string; Session.write_err := fun _ => None;
              Session.self_pid := 4242 |} in
  let w := {| Session.dir := Some []; Session.listener := None; Session.exited := false |} in
  Session.bind v = Some "127.0.0.1:5000"%string /\ Session.dir w <> None /\
  - 2 ^ 63 <= Session.self_pid v < 2 ^ 63 /\
  match Session.write_err v "addr"%string, Session.write_err v "pid"%string with
  | None, None =>
      SessionFiles.Pid (fst (Session.Listen v w)) = (Session.self_pid v, true) /\
      SessionFiles.Addr (fst (Session.Listen v w)) = "127.0.0.1:5000"%string
  | _, _ =>
      SessionFiles.Pid (fst (Session.Listen v w)) = (0, false) /\
      SessionFiles.Addr (fst (Session.Listen v w)) = EmptyString
  end.
Proof.
  intros v w.
  assert (H1 : Session.bind v = Some "127.0.0.1:5000"%string) by reflexivity.
  assert (H2 : Session.dir w <> None) by discriminate.
  assert (H3 : - 2 ^ 63 <= Session.self_pid v < 2 ^ 63) by (simpl; lia).
  exact (conj H1 (conj H2 (conj H3 (Pid_after_Listen v w _ H1 H2 H3)))).
Defined.

End SessionProps.

Module RunoutProps.
Import Shell.

Lemma output_all_spec (cs : list nat) (s : shell) (buf : list Z) :
  NoDup cs -> buf <> [] ->
  clients (Runout.output_all s cs buf) = clients s /\
  pids (Runout.output_all s cs buf) = pids s /\
  eb (Runout.output_all s cs buf) = eb s /\
  forall c, store (Runout.output_all s cs buf) c =
    if existsb (Nat.eqb c) cs
    then {| cname := cname (store s c); buffers := buffers (store s c) ++ [(dataMessage, buf)];
            primary := primary (store s c) |}
    else store s c.
Proof.
  intros Hnd Hne. revert s; induction Hnd as [|c0 cs Hn Hnd IH]; intros s.
  - repeat split.
  - cbn [Runout.output_all].
    assert (Ho : Output (store s c0) buf =
                 ({| cname := cname (store s c0); buffers := buffers (store s c0) ++ [(dataMessage, buf)];
                     primary := primary (store s c0) |}, true)).
    { unfold Output, Send, dataMessage. cbn [Z.eqb andb].
      destruct buf; [congruence|reflexivity]. }
    rewrite Ho.
    destruct (IH (set_store s (upd (store s) c0
                 {| cname := cname (store s c0); buffers := buffers (store s c0) ++ [(dataMessage, buf)];
                    primary := primary (store s c0) |}))) as (H1 & H2 & H3 & H4).
    repeat split; [exact H1|exact H2|exact H3|].
    intros c. rewrite H4. cbn [store set_store existsb]. unfold upd.
    destruct (Nat.eqb_spec c c0) as [->|Hc].
    + replace (existsb (Nat.eqb c0) cs) with false; [reflexivity|].
      symmetry. apply not_true_iff_false. intros Hin.
      apply existsb_exists in Hin as (x & Hx & Hxe). apply Nat.eqb_eq in Hxe. subst x. contradiction.
    + cbn [orb]. reflexivity.
Qed.

(** One chunk of [Shell.runout]: when [s.eb.Write] succeeds, every
    attached client gets the chunk appended as one [dataMessage] buffer,
    any other client record is unchanged, and the client and pid lists
    stay; when it panics, so does [runout]. *)
Theorem runout_chunk_broadcast (s : shell) (buf : list Z) :
  NoDup (clients s) -> buf <> [] ->
  match Runout.runout_chunk s buf with
  | None => Escape.Write ShellEsc.shell_config (eb s) buf = None
  | Some s' =>
      Escape.Write ShellEsc.shell_config (eb s) buf = Some (eb s') /\
      clients s' = clients s /\ pids s' = pids s /\
      forall c, store s' c =
        if existsb (Nat.eqb c) (clients s)
        then {| cname := cname (store s c); buffers := buffers (store s c) ++ [(dataMessage, buf)];
                primary := primary (store s c) |}
        else store s c
  end.
Proof.
  intros Hnd Hne. unfold Runout.runout_chunk.
  destruct (Escape.Write ShellEsc.shell_config (eb s) buf) as [e|] eqn:E; [|reflexivity].
  destruct (output_all_spec (clients s)
              {| clients := clients s; store := store s; pids := pids s; eb := e |} buf Hnd Hne)
    as (H1 & H2 & H3 & H4).
  rewrite H1, H2, H3. repeat split. exact H4.
Qed.

Lemma runout_chunk_broadcast_witness :
  NoDup (clients {| clients := [1; 2]%nat; store := fun _ => NewClient; pids := [];
                    eb := ShellEsc.shell_eb |}) /\ [104; 105] <> [] /\
  match Runout.runout_chunk {| clients := [1; 2]%nat; store := fun _ => NewClient; pids := [];
                               eb := ShellEsc.shell_eb |} [104; 105] with
  | None => Escape.Write ShellEsc.shell_config ShellEsc.shell_eb [104; 105] = None
  | Some s' =>
      Escape.Write ShellEsc.shell_config ShellEsc.shell_eb [104; 105] = Some (eb s') /\
      clients s' = [1; 2]%nat /\ pids s' = [] /\
      forall c, store s' c =
        if existsb (Nat.eqb c) [1; 2]%nat
        then {| cname := ""; buffers := [(dataMessage, [104; 105])]; primary := false |}
        else NewClient
  end.
Proof.
  assert (Hnd : NoDup (clients {| clients := [1; 2]%nat; store := fun _ => NewClient; pids := [];
                    eb := ShellEsc.shell_eb |})).
  { cbn. constructor; [intros [H|[]]; discriminate H|]. constructor; [intros []|constructor]. }
  assert (Hne : [104; 105] <> []) by discriminate.
  split; [exact Hnd|split; [exact Hne|]].
  exact (runout_chunk_broadcast _ _ Hnd Hne).
Defined.

End RunoutProps.

Module EscapeProps.
Import Escape.

Lemma add_first_byte (fb : list Z) (b : Z) :
  NoDup fb ->
  NoDup (if existsb (Z.eqb b) fb then fb else fb ++ [b]) /\
  forall x, In x (if existsb (Z.eqb b) fb then fb else fb ++ [b]) <-> In x fb \/ x = b.
Proof.
  intros Hnd. destruct (existsb (Z.eqb b) fb) eqn:E.
  - apply existsb_exists in E as (y & Hy & Hyb). apply Z.eqb_eq in Hyb. subst y.
    split; [exact Hnd|]. intros x. split; [tauto|]. intros [H| ->]; [exact H|exact Hy].
  - split.
    + apply NoDup_app; [exact Hnd|constructor; [intros []|constructor]|].
      intros a Ha [Hab|[]]. subst a.
      assert (existsb (Z.eqb b) fb = true); [|congruence].
      apply existsb_exists. exists b. split; [exact Ha|apply Z.eqb_refl].
    + intros x. rewrite in_app_iff. cbn [In]. split; intros [H|H]; auto.
      * destruct H as [H|[]]. auto.
Qed.

(** What [AddSequence] and [AddReportSequence] keep of [firstBytes]. *)
Lemma registered_inv (c : config) :
  Runout.registered c ->
  NoDup (firstBytes c) /\
  forall b, In b (firstBytes c) <-> exists s, In s (sequences c) /\ hd_error (seq s) = Some b.
Proof.
  induction 1 as [|c s f Hr IH|c s t f Hr IH].
  - split; [constructor|]. intros b. split; [intros []|intros (s & [] & _)].
  - destruct s as [|b r]; [exact IH|]. destruct IH as [Hnd Hin].
    cbn [AddSequence firstBytes sequences].
    destruct (add_first_byte _ b Hnd) as [Hnd' Hin'].
    split; [exact Hnd'|]. intros x. rewrite Hin', Hin. split.
    + intros [(s & Hs & Hh)| ->].
      * exists s. rewrite in_app_iff. auto.
      * eexists. rewrite in_app_iff. split; [right; left; reflexivity|reflexivity].
    + intros (s & Hs & Hh). apply in_app_or in Hs as [Hs|[<-|[]]].
      * left. exists s. auto.
      * right. cbn in Hh. congruence.
  - destruct s as [|b r]; [exact IH|]. destruct IH as [Hnd Hin].
    destruct (add_first_byte _ b Hnd) as [Hnd' Hin'].
    unfold Runout.AddReportSequence.
    destruct t as [|t0 t]; cbn [AddSequence firstBytes sequences];
    (split; [exact Hnd'|]); intros x; rewrite Hin', Hin; split.
    + intros [(s & Hs & Hh)| ->].
      * exists s. rewrite in_app_iff. auto.
      * eexists. rewrite in_app_iff. split; [right; left; reflexivity|reflexivity].
    + intros (s & Hs & Hh). apply in_app_or in Hs as [Hs|[<-|[]]].
      * left. exists s. auto.
      * right. cbn in Hh. congruence.
    + intros [(s & Hs & Hh)| ->].
      * exists s. rewrite in_app_iff. auto.
      * eexists. rewrite in_app_iff. split; [right; left; reflexivity|reflexivity].
    + intros (s & Hs & Hh). apply in_app_or in Hs as [Hs|[<-|[]]].
      * left. exists s. auto.
      * right. cbn in Hh. congruence.
Qed.

(** For a configuration built by [AddSequence] and [AddReportSequence]
    calls, [firstBytes] has no duplicates and holds exactly the first bytes
    of the registered sequences. *)
Theorem registered_firstBytes (c : config) :
  Runout.registered c ->
  NoDup (firstBytes c) /\
  forall b, In b (firstBytes c) <-> exists s, In s (sequences c) /\ hd_error (seq s) = Some b.
Proof. intros H. exact (registered_inv c H). Qed.


Lemma list_eqb_true (a b : list Z) : list_eqb a b = true <-> a = b.
Proof.
  revert b; induction a as [|x a IH]; intros [|y b]; cbn; split; try congruence.
  - rewrite andb_true_iff, Z.eqb_eq, IH. intros [-> ->]. reflexivity.
  - intros H. injection H as -> ->. rewrite Z.eqb_refl. apply IH. reflexivity.
Qed.

Lemma is_prefix_true (p s : list Z) : is_prefix p s = true <-> firstn (length p) s = p.
Proof.
  revert s; induction p as [|x p IH]; intros [|y s]; cbn; split; try congruence.
  - rewrite andb_true_iff, Z.eqb_eq, IH. intros [-> ->]. reflexivity.
  - intros H. injection H as -> H. rewrite Z.eqb_refl. apply IH. exact H.
Qed.

Lemma scan_nomatch (ss : list seqCall) (i : nat) (buf : list Z) (m : nat) :
  (forall s, In s ss -> is_prefix (seq s) buf = false) ->
  exists m', scan_seqs i ss buf m = NoMatch m' /\ (m <= m')%nat /\
    (forall s, In s ss -> is_prefix buf (seq s) = true -> (length buf < length (seq s))%nat ->
               (length (seq s) <= m')%nat) /\
    (m' = m \/ exists s, In s ss /\ is_prefix buf (seq s) = true /\
                         (length buf < length (seq s))%nat /\ length (seq s) = m').
Proof.
  revert i m; induction ss as [|s ss IH]; intros i m Hno.
  - exists m. repeat split; auto. intros s [].
  - assert (Hs : is_prefix (seq s) buf = false) by (apply Hno; left; reflexivity).
    assert (Hno' : forall s', In s' ss -> is_prefix (seq s') buf = false)
      by (intros s' H; apply Hno; right; exact H).
    cbn [scan_seqs].
    destruct (Nat.leb_spec (length (seq s)) (length buf)) as [Hl|Hl].
    + replace (list_eqb (firstn (length (seq s)) buf) (seq s)) with false.
      2:{ symmetry. apply not_true_iff_false. rewrite list_eqb_true, <- is_prefix_true. congruence. }
      destruct (IH (S i) m Hno') as (m' & E & H1 & H2 & H3).
      exists m'. rewrite E. repeat split; [exact H1| |].
      * intros s' [<-|Hin] Hp Hlt; [lia|apply H2; auto].
      * destruct H3 as [H3|(s' & Hin & H3)]; [left; exact H3|right; exists s'; split; [right; exact Hin|exact H3]].
    + destruct (list_eqb (firstn (length buf) (seq s)) buf) eqn:Ep.
      * apply list_eqb_true in Ep. apply is_prefix_true in Ep.
        set (m1 := if Nat.ltb m (length (seq s)) then length (seq s) else m).
        destruct (IH (S i) m1 Hno') as (m' & E & H1 & H2 & H3).
        exists m'. rewrite E.
        assert (Hm1 : (m <= m1)%nat /\ (length (seq s) <= m1)%nat)
          by (unfold m1; destruct (Nat.ltb_spec m (length (seq s))); lia).
        repeat split; [lia| |].
        -- intros s' [<-|Hin] Hp Hlt; [lia|apply H2; auto].
        -- destruct H3 as [H3|(s' & Hin & H3)].
           ++ unfold m1 in H3. destruct (Nat.ltb_spec m (length (seq s))).
              ** right. exists s. split; [left; reflexivity|]. repeat split; auto; lia.
              ** left. exact H3.
           ++ right. exists s'. split; [right; exact Hin|exact H3].
      * destruct (IH (S i) m Hno') as (m' & E & H1 & H2 & H3).
        exists m'. rewrite E. repeat split; [exact H1| |].
        -- intros s' [<-|Hin] Hp Hlt.
           ++ apply is_prefix_true, list_eqb_true in Hp. congruence.
           ++ apply H2; auto.
        -- destruct H3 as [H3|(s' & Hin & H3)]; [left; exact H3|right; exists s'; split; [right; exact Hin|exact H3]].
Qed.

(** [EscapeBuffer.Write] with no saved partial sequence: a write that is
    a proper prefix of a registered sequence, with no registered sequence a
    prefix of it, is kept whole as the partial sequence, its capacity the
    longest sequence it can still become. *)
Theorem Write_saves_partial (cfg : config) (e : ebuf) (buf : list Z) :
  Runout.registered cfg -> (forall b, In b (firstBytes cfg) -> 0 <= b < 128) ->
  buf <> [] -> sd (partial e) = [] -> inseq e = None ->
  (forall s, In s (sequences cfg) -> is_prefix (seq s) buf = false) ->
  (exists s, In s (sequences cfg) /\ is_prefix buf (seq s) = true) ->
  exists m, Write cfg e buf = Some (set_partial e {| sd := buf; sc := m |}) /\
    (forall s, In s (sequences cfg) -> is_prefix buf (seq s) = true -> (length (seq s) <= m)%nat) /\
    (exists s, In s (sequences cfg) /\ is_prefix buf (seq s) = true /\ length (seq s) = m).
Proof.
  intros Hr _ Hne Hp Hq Hno (s0 & Hs0 & Hps0).
  destruct buf as [|b r]; [congruence|].
  assert (Hlt : forall s, In s (sequences cfg) -> is_prefix (b :: r) (seq s) = true ->
                  (length (b :: r) < length (seq s))%nat).
  { intros s Hs Hp'. apply is_prefix_true in Hp' as Hf.
    destruct (Nat.lt_ge_cases (length (b :: r)) (length (seq s))) as [H|H]; [exact H|].
    exfalso. assert (Heq : seq s = b :: r).
    { rewrite <- Hf. rewrite firstn_all2 by exact H. reflexivity. }
    assert (is_prefix (seq s) (b :: r) = true) as Hc.
    { apply is_prefix_true. rewrite Heq, firstn_all. reflexivity. }
    rewrite (Hno s Hs) in Hc. discriminate. }
  assert (Hb : In b (firstBytes cfg)).
  { apply (proj2 (registered_inv cfg Hr)). exists s0. split; [exact Hs0|].
    pose proof (Hlt s0 Hs0 Hps0) as Hl0. apply is_prefix_true in Hps0.
    destruct (seq s0) as [|x q]; [cbn in Hl0; lia|].
    cbn in Hps0. injection Hps0 as ->. reflexivity. }
  destruct (scan_nomatch (sequences cfg) 0 (b :: r) 0 Hno) as (m & Hm & _ & H2 & H3).
  assert (Hm0 : (length (seq s0) <= m)%nat) by (apply H2; auto).
  exists m. split; [|split].
  - unfold Write.
    destruct (firstBytes cfg) as [|f0 fs] eqn:Efb; [destruct Hb|].
    cbn [partial_loop]. rewrite Hp. cbn iota. rewrite Hp. cbn iota.
    unfold loop_fuel. cbn [loop]. rewrite Hq. cbn iota.
    rewrite Efb. cbn [index_any].
    assert (Hex : existsb (Z.eqb b) (f0 :: fs) = true)
      by (apply existsb_exists; exists b; split; [exact Hb|apply Z.eqb_refl]).
    rewrite Hex. cbn [firstn skipn].
    unfold add. destruct (inalt e); cbn [appendto length Nat.eqb option_map];
    rewrite Hm; (destruct (Nat.ltb_spec 0 m) as [_|Hc]; [|cbn in Hlt; specialize (Hlt s0 Hs0 Hps0); lia]);
    destruct e; reflexivity.
  - intros s Hs Hp'. apply H2; auto.
  - destruct H3 as [H3|H3]; [|destruct H3 as (s & Hs & Hp' & _ & Hl); exists s; auto].
    specialize (Hlt s0 Hs0 Hps0). cbn in Hlt. lia.
Qed.


Lemma slack_eq (oc : nat) :
  (if Nat.ltb (oc / 8) 1024 then (if Nat.eqb (oc / 8) 0 then 1 else oc / 8)%nat else 1024%nat)
  = Nat.min 1024 (Nat.max 1 (oc / 8)).
Proof.
  destruct (Nat.ltb_spec (oc / 8) 1024); [destruct (Nat.eqb_spec (oc / 8) 0)|]; lia.
Qed.

(** [appendto] panics exactly when [new] is non-empty and shorter than
    [cap(old)], [old] and [new] together do not fit, and [cap(old)] exceeds
    [len(new)] plus the slack [min(1024, max(1, cap(old)/8))]. *)
Theorem appendto_panic_iff (old : slice) (new : list Z) :
  appendto old new = None <->
  (0 < length new < sc old /\ sc old <= length new + length (sd old) /\
   sc old < length new + Nat.min 1024 (Nat.max 1 (sc old / 8)))%nat.
Proof.
  unfold appendto. rewrite slack_eq.
  set (e := Nat.min 1024 (Nat.max 1 (sc old / 8))).
  assert (He : (1 <= e)%nat) by (unfold e; lia). clearbody e.
  destruct (Nat.eqb_spec (length new) 0); [split; [discriminate|lia]|].
  destruct (Nat.leb_spec (sc old) (length new)); [split; [discriminate|lia]|].
  destruct (Nat.ltb_spec (length new + length (sd old)) (sc old)); [split; [discriminate|lia]|].
  destruct (Nat.ltb_spec (length (sd old)) (length new + length (sd old) - sc old + e)).
  - split; [intros _|reflexivity]. lia.
  - split; [discriminate|lia].
Qed.

(** When [appendto] returns, the result is a suffix of [old + new]: only
    the oldest bytes are dropped, and at least [len(old) + len(new)] or
    [cap(old)] minus the slack bytes are kept. *)
Theorem appendto_keeps_suffix (old s : slice) (new : list Z) :
  appendto old new = Some s ->
  (exists pre, sd old ++ new = pre ++ sd s) /\
  (Nat.min (length (sd old) + length new) (sc old - Nat.min 1024 (Nat.max 1 (sc old / 8)))
     <= length (sd s))%nat.
Proof.
  unfold appendto. rewrite slack_eq.
  set (e := Nat.min 1024 (Nat.max 1 (sc old / 8))).
  assert (He : (1 <= e)%nat) by (unfold e; lia). clearbody e.
  intros H.
  destruct (Nat.eqb_spec (length new) 0) as [H0|H0].
  { injection H as <-. apply length_zero_iff_nil in H0. subst new.
    rewrite app_nil_r. split; [exists []; reflexivity|]. cbn [length]. lia. }
  destruct (Nat.leb_spec (sc old) (length new)).
  { injection H as <-. cbn [sd]. split.
    - exists (sd old ++ firstn (length new - sc old) new).
      rewrite <- app_assoc, firstn_skipn. reflexivity.
    - rewrite length_skipn. lia. }
  destruct (Nat.ltb_spec (length new + length (sd old)) (sc old)).
  { injection H as <-. cbn [sd]. split; [exists []; reflexivity|]. rewrite length_app. lia. }
  destruct (Nat.ltb_spec (length (sd old)) (length new + length (sd old) - sc old + e));
    [discriminate|].
  injection H as <-. cbn [sd]. split.
  - exists (firstn (length new + length (sd old) - sc old + e) (sd old)).
    rewrite app_assoc, firstn_skipn. reflexivity.
  - rewrite length_app, length_skipn. lia.
Qed.

Lemma registered_firstBytes_witness :
  Runout.registered ShellEsc.shell_config /\
  NoDup (firstBytes ShellEsc.shell_config) /\
  forall b, In b (firstBytes ShellEsc.shell_config) <->
    exists s, In s (sequences ShellEsc.shell_config) /\ hd_error (seq s) = Some b.
Proof.
  assert (H : Runout.registered ShellEsc.shell_config).
  { unfold ShellEsc.shell_config. repeat apply Runout.reg_add. apply Runout.reg_empty. }
  exact (conj H (registered_firstBytes _ H)).
Defined.

Lemma Write_saves_partial_witness :
  let cfg := ShellEsc.shell_config in
  let e := NewEscapeBuffer 64 in
  let buf := [27; 91] in
  Runout.registered cfg /\ (forall b, In b (firstBytes cfg) -> 0 <= b < 128) /\ buf <> [] /\ sd (partial e) = [] /\ inseq e = None /\
  (forall s, In s (sequences cfg) -> is_prefix (seq s) buf = false) /\
  (exists s, In s (sequences cfg) /\ is_prefix buf (seq s) = true) /\
  exists m, Write cfg e buf = Some (set_partial e {| sd := buf; sc := m |}) /\
    (forall s, In s (sequences cfg) -> is_prefix buf (seq s) = true -> (length (seq s) <= m)%nat) /\
    (exists s, In s (sequences cfg) /\ is_prefix buf (seq s) = true /\ length (seq s) = m).
Proof.
  intros cfg e buf.
  assert (H1 : Runout.registered cfg).
  { unfold cfg, ShellEsc.shell_config. repeat apply Runout.reg_add. apply Runout.reg_empty. }
  assert (H0 : forall b, In b (firstBytes cfg) -> 0 <= b < 128).
  { assert (Hall : forallb (fun b => andb (Z.leb 0 b) (Z.ltb b 128)) (firstBytes cfg) = true)
      by (vm_compute; reflexivity).
    intros b Hb. rewrite forallb_forall in Hall. apply Hall in Hb.
    apply andb_prop in Hb as [Hb1 Hb2]. apply Z.leb_le in Hb1. apply Z.ltb_lt in Hb2. lia. }
  assert (H2 : buf <> []) by discriminate.
  assert (H3 : sd (partial e) = []) by reflexivity.
  assert (H4 : inseq e = None) by reflexivity.
  assert (H5 : forall s, In s (sequences cfg) -> is_prefix (seq s) buf = false).
  { assert (Hall : forallb (fun s => negb (is_prefix (seq s) buf)) (sequences cfg) = true)
      by (vm_compute; reflexivity).
    intros s Hs. rewrite forallb_forall in Hall. apply Hall in Hs.
    destruct (is_prefix (seq s) buf); [discriminate Hs|reflexivity]. }
  assert (H6 : exists s, In s (sequences cfg) /\ is_prefix buf (seq s) = true).
  { destruct (sequences cfg) as [|s0 rest] eqn:Es; [vm_compute in Es; discriminate Es|].
    exists s0. split; [left; reflexivity|].
    assert (Hs0 : hd_error (sequences cfg) = Some s0) by (rewrite Es; reflexivity).
    vm_compute in Hs0. injection Hs0 as <-. vm_compute. reflexivity. }
  exact (conj H1 (conj H0 (conj H2 (conj H3 (conj H4 (conj H5 (conj H6
    (Write_saves_partial cfg e buf H1 H0 H2 H3 H4 H5 H6)))))))).
Defined.

Lemma appendto_keeps_suffix_witness :
  let old := {| sd := [1; 2; 3]; sc := 4 |} in
  let new := [4; 5] in
  let s := {| sd := [3; 4; 5]; sc := 4 |} in
  appendto old new = Some s /\
  (exists pre, sd old ++ new = pre ++ sd s) /\
  (Nat.min (length (sd old) + length new) (sc old - Nat.min 1024 (Nat.max 1 (sc old / 8)))
     <= length (sd s))%nat.
Proof.
  intros old new s.
  assert (H : appendto old new = Some s) by reflexivity.
  exact (conj H (appendto_keeps_suffix old s new H)).
Defined.

End EscapeProps.

Module UtilProps.
Import Util.

Lemma byte_of_char_of (c : Z) : 0 <= c < 256 -> byte_of (char_of c) = c.
Proof.
  intros H. unfold byte_of, char_of. rewrite N_ascii_embedding by lia. lia.
Qed.

(** [parseEscapeChar(printEscape(c))] gives back [c] for every byte below
    127, whatever [strconv] does. *)
Theorem parseEscapeChar_printEscape (Q : Z -> string) (U : string -> string) (c : Z) :
  0 <= c <= 126 -> parseEscapeChar U (printEscape Q c) = (c, true).
Proof.
  intros H. unfold printEscape.
  destruct (Z.ltb_spec c 32).
  - unfold parseEscapeChar. cbn beta iota. rewrite Ascii.eqb_refl.
    rewrite byte_of_char_of by lia.
    change 31 with (Z.ones 5). rewrite Z.land_ones by lia.
    f_equal. rewrite <- (Z.mod_small c 32) at 2 by lia.
    change (2 ^ 5) with 32.
    replace (c + 64) with (c + 2 * 32) by lia. apply Z.mod_add. lia.
  - destruct (Z.leb_spec c 126); [|lia].
    unfold parseEscapeChar. rewrite byte_of_char_of by lia. reflexivity.
Qed.

Lemma parseEscapeChar_printEscape_witness :
  0 <= 1 <= 126 /\
  parseEscapeChar (fun s => s) (printEscape (fun _ => EmptyString) 1) = (1, true).
Proof.
  assert (H : 0 <= 1 <= 126) by lia.
  exact (conj H (parseEscapeChar_printEscape (fun _ => EmptyString) (fun s => s) 1 H)).
Defined.

End UtilProps.

End Extras.
